(** * django_redis.client.default: a shallow embedding of [DefaultClient]

    The Python client of [src/django_redis/client/default.py] is embedded
    as Rocq functions over an explicit world: the Redis servers the client
    talks to, the transport faults and random draws still to come, the
    connection slots of the client object and the log of the commands
    issued.  Every method keeps the name it has in the source. *)

From Stdlib Require Import ZArith QArith.QArith_base Strings.Ascii Strings.Byte DecimalString.
From Stdlib Require Import DecimalFacts DecimalPos DecimalN DecimalZ.
From stdpp Require Import base option list gmap strings.

Local Open Scope string_scope.
Local Open Scope list_scope.
Local Open Scope Z_scope.

(** ** Python data *)

(** [bytes] objects. *)
Abbreviation bytes := (list byte).

Definition b_ (s : string) : bytes := String.list_byte_of_string s.

(** [str(n)] for a Python [int]. *)
Definition str_of_int (n : Z) : string := NilZero.string_of_int (Z.to_int n).

(** A number as [set] receives it for [timeout]: a Python [int], or a
    [float] taken as the exact rational it denotes. *)
Abbreviation pynum := Q.

(** [int(x)] on a number: truncation toward zero. *)
Definition py_int_of_num (x : pynum) : Z := Z.quot (Qnum x) (Zpos (Qden x)).

Definition num_of_int (n : Z) : pynum := Qmake n 1.

(** [x * 1000]. *)
Definition times_1000 (x : pynum) : pynum := Qmake (Qnum x * 1000) (Qden x).

(** The values the cache stores.  [bool] is kept apart from [int], as
    [isinstance(value, bool)] tells them apart in [encode]. *)
Inductive value : Type :=
  | VNone
  | VBool (b : bool)
  | VInt (n : Z)
  | VStr (s : string)
  | VBytes (b : bytes).

(** What goes on the wire for a value: [Union[bytes, int]]. *)
Inductive stored : Type :=
  | SInt (n : Z)
  | SBytes (b : bytes).

(** A key is a plain [str] or a [CacheKey], the [str] subclass that marks
    a key as already composed. *)
Inductive key : Type :=
  | Plain (s : string)
  | CacheKey (s : string).

Definition key_str (k : key) : string :=
  match k with Plain s | CacheKey s => s end.

(** ** Exceptions *)

(** [_main_exceptions = (TimeoutError, ResponseError, ConnectionError,
    socket.timeout)]. *)
Inductive main_exception : Type :=
  | TimeoutError
  | ResponseError
  | ConnectionError
  | socket_timeout.

Inductive exn : Type :=
  | Main (e : main_exception)
  | ConnectionInterrupted (connection : option nat) (cause : main_exception)
  | KeyNotFound (k : string)      (* ValueError("Key '%s' not found" % key) *)
  | ValueError
  | TypeError
  | IndexError
  | UnboundLocalError
  | CompressorError
  | SerializerError
  | LoopBudgetExhausted.          (* never raised by the source: see [set_within_budget] *)

Inductive result (A : Type) : Type :=
  | Ok (a : A)
  | Raise (e : exn).
Arguments Ok {A} a.
Arguments Raise {A} e.

(** ** KeyCodec *)

(** [re.sub] for a pattern that is one capturing character class,
    [([...])]: scanning left to right, every character of the class is a
    match of length one and is replaced by the template applied to it. *)
Fixpoint re_sub_class (cls : list ascii) (template : ascii -> string)
    (s : string) : string :=
  match s with
  | EmptyString => EmptyString
  | String c rest =>
      if bool_decide (c ∈ cls)
      then template c +:+ re_sub_class cls template rest
      else String c (re_sub_class cls template rest)
  end.

(** [special_re = re.compile("([*?[])")]. *)
Definition special_re : list ascii := ["*"; "?"; "["]%char.

(** The replacement [r"[\1]"]. *)
Definition bracket_group1 (c : ascii) : string :=
  String "[" (String c (String "]" EmptyString)).

Definition glob_escape (s : string) : string :=
  re_sub_class special_re bracket_group1 s.

(** The backend collaborator ([BaseCache]): its defaults and key function. *)
Record backend : Type := {
  key_prefix : string;
  version : Z;
  default_timeout : option pynum;
  key_func : string -> string -> string -> string  (* key, prefix, version *)
}.

(** Django's [default_key_func]: ["%s:%s:%s" % (key_prefix, version, key)]. *)
Definition default_key_func (k prefix ver : string) : string :=
  prefix +:+ ":" +:+ ver +:+ ":" +:+ k.

Definition make_key (b : backend) (k : key) (ver : option Z)
    (prefix : option string) : key :=
  match k with
  | CacheKey _ => k
  | Plain s =>
      let prefix := match prefix with None => key_prefix b | Some p => p end in
      let ver := match ver with None => version b | Some v => v end in
      CacheKey (key_func b s prefix (str_of_int ver))
  end.

Definition make_pattern (b : backend) (pattern : key) (ver : option Z)
    (prefix : option string) : key :=
  match pattern with
  | CacheKey _ => pattern
  | Plain s =>
      let prefix := match prefix with None => key_prefix b | Some p => p end in
      let prefix := glob_escape prefix in
      let ver := match ver with None => version b | Some v => v end in
      let version_str := glob_escape (str_of_int ver) in
      CacheKey (key_func b s prefix version_str)
  end.

(** ** ValueCodec *)

(** The serializer collaborator: [dumps] and [loads]. *)
Record serializer : Type := {
  dumps : value -> bytes;
  loads : bytes -> result value
}.

(** The compressor collaborator.  [decompress] raises [CompressorError]
    for "these bytes were not compressed". *)
Record compressor : Type := {
  compress : bytes -> bytes;
  decompress : bytes -> result bytes
}.

(** [django_redis.compressors.identity.IdentityCompressor], the default. *)
Definition IdentityCompressor : compressor :=
  {| compress := fun b => b; decompress := fun b => Ok b |}.

(** [int(b)] for [b : bytes], base 10: blanks are stripped on both sides,
    one sign is allowed, and single underscores may separate digits.  The
    interpreter's cap on the number of digits is not modelled. *)
Definition is_space (b : byte) : bool :=
  match b with
  | x20 | x09 | x0a | x0b | x0c | x0d => true
  | _ => false
  end.

Definition digit_val (b : byte) : option Z :=
  let n := Z.of_N (Byte.to_N b) in
  if (48 <=? n) && (n <=? 57) then Some (n - 48) else None.

Fixpoint skip_space (l : bytes) : bytes :=
  match l with
  | b :: r => if is_space b then skip_space r else l
  | [] => []
  end.

(** Digits after the first one; [prev_us] tells that the previous byte was
    an underscore.  Returns the number read and the bytes left. *)
Fixpoint scan_digits (l : bytes) (acc : Z) (prev_us : bool) : option (Z * bytes) :=
  match l with
  | [] => if prev_us then None else Some (acc, [])
  | b :: r =>
      match digit_val b with
      | Some d => scan_digits r (acc * 10 + d) false
      | None =>
          if Byte.eqb b "_"%byte
          then (if prev_us then None else scan_digits r acc true)
          else (if prev_us then None else Some (acc, l))
      end
  end.

Definition py_int_of_bytes (l : bytes) : option Z :=
  let l := skip_space l in
  let '(sign, l) :=
    match l with
    | b :: r =>
        if Byte.eqb b "-"%byte then (-1, r)
        else if Byte.eqb b "+"%byte then (1, r)
        else (1, l)
    | [] => (1, l)
    end in
  match l with
  | [] => None
  | b :: r =>
      match digit_val b with
      | None => None
      | Some d =>
          match scan_digits r d false with
          | None => None
          | Some (n, rest) =>
              match skip_space rest with
              | [] => Some (sign * n)
              | _ :: _ => None
              end
          end
      end
  end.

(** The client object, as [__init__] leaves it.  The connection slots
    [_clients] are mutable and live in the world below. *)
Record client : Type := {
  _backend : backend;
  _server : list string;
  _replica_read_only : bool;
  _serializer : serializer;
  _compressor : compressor
}.

Definition isinstance_bool (v : value) : bool :=
  match v with VBool _ => true | _ => false end.

(** [bool] is a subclass of [int]. *)
Definition isinstance_int (v : value) : bool :=
  match v with VBool _ | VInt _ => true | _ => false end.

(** The integer a value of class [int] stands for. *)
Definition int_of_value (v : value) : Z :=
  match v with
  | VInt n => n
  | VBool b => if b then 1 else 0
  | _ => 0
  end.

Definition encode (c : client) (v : value) : stored :=
  if isinstance_bool v || negb (isinstance_int v)
  then
    let value := dumps (_serializer c) v in
    let value := compress (_compressor c) value in
    SBytes value
  else SInt (int_of_value v).

(** [int(value)], with [None] for [ValueError]. *)
Definition py_int_of_stored (s : stored) : option Z :=
  match s with
  | SInt n => Some n
  | SBytes b => py_int_of_bytes b
  end.

Definition stored_bytes (s : stored) : bytes :=
  match s with
  | SInt n => b_ (str_of_int n)
  | SBytes b => b
  end.

Definition decode (c : client) (s : stored) : result value :=
  match py_int_of_stored s with
  | Some n => Ok (VInt n)
  | None =>
      let b := stored_bytes s in
      match decompress (_compressor c) b with
      | Ok b' => loads (_serializer c) b'
      | Raise CompressorError => loads (_serializer c) b
      | Raise e => Raise e
      end
  end.

(** ** The world: Redis servers, transport, randomness *)

(** One key of a Redis server: its string and what is left of its
    expiry in milliseconds ([None]: the key does not expire).  Time does
    not pass in this model. *)
Record entry : Type := {
  e_value : bytes;
  e_pttl : option Z
}.

(** The commands the client sends.  [EVAL] carries which of the two Lua
    scripts of [_incr] it runs. *)
Inductive command : Type :=
  | SET (k : string) (v : stored) (nx : bool) (px : option Z) (xx : bool)
  | GET (k : string)
  | MGET (ks : list string)
  | DEL (ks : list string)
  | EXISTS (k : string)
  | TTL (k : string)
  | EVAL (check_exists : bool) (k : string) (delta : Z).

(** A connection handle names the server it is connected to, by the
    position of that server in [_server]; building one does no I/O. *)
Record world : Type := {
  servers : gmap nat (gmap string entry);
  faults : list (option main_exception);  (* fate of each command to come *)
  entropy : list nat;                      (* random draws to come *)
  _clients : list (option nat);            (* self._clients *)
  log : list (nat * command)               (* commands sent, oldest first *)
}.

Definition set_servers (w : world) (s : gmap nat (gmap string entry)) : world :=
  {| servers := s; faults := faults w; entropy := entropy w;
     _clients := _clients w; log := log w |}.

Definition set_faults (w : world) (f : list (option main_exception)) : world :=
  {| servers := servers w; faults := f; entropy := entropy w;
     _clients := _clients w; log := log w |}.

Definition set_entropy (w : world) (r : list nat) : world :=
  {| servers := servers w; faults := faults w; entropy := r;
     _clients := _clients w; log := log w |}.

Definition set_clients (w : world) (cs : list (option nat)) : world :=
  {| servers := servers w; faults := faults w; entropy := entropy w;
     _clients := cs; log := log w |}.

Definition add_log (w : world) (conn : nat) (cmd : command) : world :=
  {| servers := servers w; faults := faults w; entropy := entropy w;
     _clients := _clients w; log := log w ++ [(conn, cmd)] |}.

(** The keys of the server behind a handle. *)
Definition db (w : world) (conn : nat) : gmap string entry :=
  default ∅ (servers w !! conn).

(** ** Computations: state and exceptions *)

Definition M (A : Type) : Type := world -> result A * world.

Definition ret {A} (a : A) : M A := fun w => (Ok a, w).

Definition raise {A} (e : exn) : M A := fun w => (Raise e, w).

Definition bind {A B} (m : M A) (k : A -> M B) : M B :=
  fun w =>
    match m w with
    | (Ok a, w') => k a w'
    | (Raise e, w') => (Raise e, w')
    end.

Declare Scope py_scope.
Delimit Scope py_scope with py.
Notation "x <- m ;; k" := (bind m (fun x => k))
  (at level 100, m at next level, right associativity) : py_scope.
Local Open Scope py_scope.

Definition lift {A} (r : result A) : M A := fun w => (r, w).

(** [try: m  except _main_exceptions as e: h e]. *)
Definition except_main {A} (m : M A) (h : main_exception -> M A) : M A :=
  fun w =>
    match m w with
    | (Raise (Main e), w') => h e w'
    | r => r
    end.

(** [try: m  except ResponseError: h]. *)
Definition except_ResponseError {A} (m : M A) (h : M A) : M A :=
  fun w =>
    match m w with
    | (Raise (Main ResponseError), w') => h w'
    | r => r
    end.

(** Sending one command over a handle: it is logged, the transport may
    fail it, otherwise the server runs it on its keys. *)
Definition next_fault (w : world) : option main_exception :=
  match faults w with
  | f :: _ => f
  | [] => None
  end.

Definition send {A} (conn : nat) (cmd : command)
    (run : gmap string entry -> result A * gmap string entry) : M A :=
  fun w =>
    let fault := next_fault w in
    let w := set_faults (add_log w conn cmd) (tail (faults w)) in
    match fault with
    | Some e => (Raise (Main e), w)
    | None =>
        let '(r, d) := run (db w conn) in
        (r, set_servers w (<[conn := d]> (servers w)))
    end.

(** *** What the server does *)

Definition int64 (n : Z) : bool := (- 2 ^ 63 <=? n) && (n <? 2 ^ 63).

Fixpoint all_digits (l : bytes) (acc : Z) : option Z :=
  match l with
  | [] => Some acc
  | b :: r =>
      match digit_val b with
      | Some d => all_digits r (acc * 10 + d)
      | None => None
      end
  end.

(** The server's strict reading of a string as a 64-bit integer: no
    blanks, no [+], no leading zero. *)
Definition string2ll (l : bytes) : option Z :=
  let '(neg, digits) :=
    match l with
    | b :: r => if Byte.eqb b "-"%byte then (true, r) else (false, l)
    | [] => (false, l)
    end in
  match digits with
  | [] => None
  | d :: r =>
      if Byte.eqb d "0"%byte
      then (match r with [] => if neg then None else Some 0 | _ :: _ => None end)
      else
        match all_digits digits 0 with
        | Some n => let n := if neg then - n else n in
                    if int64 n then Some n else None
        | None => None
        end
  end.

Definition run_set (k : string) (v : stored) (nx : bool) (px : option Z) (xx : bool)
    (d : gmap string entry) : result bool * gmap string entry :=
  if nx && xx then (Raise (Main ResponseError), d)
  else if match px with Some ms => ms <=? 0 | None => false end
  then (Raise (Main ResponseError), d)
  else if nx && bool_decide (is_Some (d !! k)) then (Ok false, d)
  else if xx && bool_decide (d !! k = None) then (Ok false, d)
  else (Ok true, <[k := {| e_value := stored_bytes v; e_pttl := px |}]> d).

Definition run_get (k : string) (d : gmap string entry)
    : result (option bytes) * gmap string entry :=
  (Ok (e_value <$> d !! k), d).

Definition run_mget (ks : list string) (d : gmap string entry)
    : result (list (option bytes)) * gmap string entry :=
  (Ok (map (fun k => e_value <$> d !! k) ks), d).

Fixpoint run_del_keys (ks : list string) (d : gmap string entry)
    : Z * gmap string entry :=
  match ks with
  | [] => (0, d)
  | k :: r =>
      let n := if bool_decide (is_Some (d !! k)) then 1 else 0 in
      let '(m, d') := run_del_keys r (delete k d) in
      (n + m, d')
  end.

Definition run_del (ks : list string) (d : gmap string entry)
    : result Z * gmap string entry :=
  let '(n, d') := run_del_keys ks d in (Ok n, d').

Definition run_exists (k : string) (d : gmap string entry)
    : result Z * gmap string entry :=
  (Ok (if bool_decide (is_Some (d !! k)) then 1 else 0), d).

(** [TTL]: -2 for no key, -1 for no expiry, else seconds, rounded. *)
Definition run_ttl (k : string) (d : gmap string entry)
    : result Z * gmap string entry :=
  (Ok match d !! k with
      | None => -2
      | Some e => match e_pttl e with None => -1 | Some ms => (ms + 500) / 1000 end
      end, d).

(** [INCRBY], as both Lua scripts call it. *)
Definition run_incrby (k : string) (delta : Z) (d : gmap string entry)
    : result (option Z) * gmap string entry :=
  if negb (int64 delta) then (Raise (Main ResponseError), d)
  else
    let cur := match d !! k with
               | None => Some 0
               | Some e => string2ll (e_value e)
               end in
    match cur with
    | None => (Raise (Main ResponseError), d)
    | Some n =>
        if int64 (n + delta)
        then (Ok (Some (n + delta)),
              <[k := {| e_value := b_ (str_of_int (n + delta));
                        e_pttl := d !! k ≫= e_pttl |}]> d)
        else (Raise (Main ResponseError), d)
    end.

(** The two scripts of [_incr]; a Lua [false] reaches Python as [None].
    Lua's conversion of the reply is taken as exact. *)
Definition run_eval (check_exists : bool) (k : string) (delta : Z)
    (d : gmap string entry) : result (option Z) * gmap string entry :=
  if check_exists
  then (if bool_decide (is_Some (d !! k)) then run_incrby k delta d else (Ok None, d))
  else run_incrby k delta d.

(** *** The methods of a [Redis] handle *)

Definition client_set (conn : nat) (k : string) (v : stored) (nx : bool)
    (px : option Z) (xx : bool) : M bool :=
  send conn (SET k v nx px xx) (run_set k v nx px xx).

Definition client_get (conn : nat) (k : string) : M (option bytes) :=
  send conn (GET k) (run_get k).

Definition client_mget (conn : nat) (ks : list string) : M (list (option bytes)) :=
  send conn (MGET ks) (run_mget ks).

Definition client_delete (conn : nat) (ks : list string) : M Z :=
  send conn (DEL ks) (run_del ks).

Definition client_exists (conn : nat) (k : string) : M Z :=
  send conn (EXISTS k) (run_exists k).

Definition client_ttl (conn : nat) (k : string) : M Z :=
  send conn (TTL k) (run_ttl k).

Definition client_eval (conn : nat) (check_exists : bool) (k : string)
    (delta : Z) : M (option Z) :=
  send conn (EVAL check_exists k delta) (run_eval check_exists k delta).

(** ** ReplicaSelector and ConnectionRegistry *)

(** The next draw of the random generator. *)
Definition draw : M nat :=
  fun w =>
    match entropy w with
    | r :: rest => (Ok r, set_entropy w rest)
    | [] => (Ok 0%nat, w)
    end.

(** [random.choice(seq)]. *)
Definition random_choice {A} (seq : list A) : M A :=
  match seq with
  | [] => raise IndexError
  | _ :: _ =>
      r <- draw ;;
      match seq !! (r mod length seq)%nat with
      | Some x => ret x
      | None => raise IndexError
      end
  end.

(** [random.randint(a, b)]. *)
Definition random_randint (a b : Z) : M Z :=
  if b <? a then raise ValueError
  else r <- draw ;; ret (a + Z.of_nat r mod (b - a + 1)).

Definition get_next_client_index (c : client) (write : bool)
    (tried : option (list nat)) : M nat :=
  let tried := match tried with None => [] | Some t => t end in
  let n := length (_server c) in
  if negb (bool_decide (tried = [])) && (length tried <? n)%nat
  then
    let not_tried := filter (fun i => i ∉ tried) (seq 0 n) in
    random_choice not_tried
  else if write || (n =? 1)%nat then ret 0%nat
  else i <- random_randint 1 (Z.of_nat n - 1) ;; ret (Z.to_nat i).

(** [connection_factory.connect(self._server[index])]. *)
Definition connect (c : client) (index : nat) : M nat :=
  match _server c !! index with
  | Some _ => ret index
  | None => raise IndexError
  end.

(** [self._clients[index]]. *)
Definition clients_get (index : nat) : M (option nat) :=
  fun w =>
    match _clients w !! index with
    | Some slot => (Ok slot, w)
    | None => (Raise IndexError, w)
    end.

(** [self._clients[index] = h]. *)
Definition clients_put (index : nat) (h : nat) : M unit :=
  fun w =>
    if (index <? length (_clients w))%nat
    then (Ok tt, set_clients w (<[index := Some h]> (_clients w)))
    else (Raise IndexError, w).

(** [get_client(..., show_index=True)]: the handle and its index. *)
Definition get_client (c : client) (write : bool) (tried : option (list nat))
    : M (nat * nat) :=
  index <- get_next_client_index c write tried ;;
  slot <- clients_get index ;;
  match slot with
  | Some h => ret (h, index)
  | None =>
      h <- connect c index ;;
      _ <- clients_put index h ;;
      ret (h, index)
  end.

(** [client = self.get_client(write=...)] when [client is None]. *)
Definition client_or_get (c : client) (write : bool) (cl : option nat) : M nat :=
  match cl with
  | Some h => ret h
  | None => hi <- get_client c write None ;; ret (fst hi)
  end.

(** ** CacheOperations *)

Definition has_key (c : client) (k : key) (ver : option Z) (cl : option nat)
    : M bool :=
  cl <- client_or_get c false cl ;;
  let k := make_key (_backend c) k ver None in
  except_main
    (n <- client_exists cl (key_str k) ;; ret (n =? 1))
    (fun e => raise (ConnectionInterrupted (Some cl) e)).

Definition delete (c : client) (k : key) (ver : option Z)
    (prefix : option string) (cl : option nat) : M Z :=
  cl <- client_or_get c true cl ;;
  except_main
    (client_delete cl [key_str (make_key (_backend c) k ver prefix)])
    (fun e => raise (ConnectionInterrupted (Some cl) e)).

(** [bool(n)] on the outcome of a call that returns a count. *)
Definition bool_of_count (r : result Z) : result bool :=
  match r with
  | Ok n => Ok (negb (n =? 0))
  | Raise e => Raise e
  end.

(** The [timeout] argument: the sentinel, or [Optional[float]]. *)
Inductive timeout_arg : Type :=
  | DEFAULT_TIMEOUT
  | Timeout (t : option pynum).

(** The local variables of [set] that its loop rebinds. *)
Record set_frame : Type := {
  f_client : option nat;
  f_index : option nat;      (* [None]: not bound yet *)
  f_timeout : option pynum;
  f_tried : list nat
}.

(** First statement of the [try] of [set]:
    [if client is None: client, index = self.get_client(...)]. *)
Definition set_acquire (c : client) (f : set_frame)
    : world -> result (nat * set_frame) * world :=
  fun w =>
    match f_client f with
    | Some h => (Ok (h, f), w)
    | None =>
        match get_client c true (Some (f_tried f)) w with
        | (Ok (h, i), w') =>
            (Ok (h, {| f_client := Some h; f_index := Some i;
                       f_timeout := f_timeout f; f_tried := f_tried f |}), w')
        | (Raise e, w') => (Raise e, w')
        end
    end.

(** The rest of the [try], on the handle [h] that [client] now holds. *)
Definition set_attempt (c : client) (k : key) (ver : option Z) (nx xx : bool)
    (nkey : key) (nvalue : stored) (h : nat) (f : set_frame)
    : world -> (result bool * set_frame) * world :=
  fun w =>
    match f_timeout f with
    | Some t =>
        let ms := py_int_of_num (times_1000 t) in
        let f := {| f_client := f_client f; f_index := f_index f;
                    f_timeout := Some (num_of_int ms); f_tried := f_tried f |} in
        if ms <=? 0
        then
          if nx
          then
            let '(r, w) := has_key c k ver (Some h) w in
            (match r with Ok b => Ok (negb b) | Raise e => Raise e end, f, w)
          else
            let '(r, w) := delete c k ver None (Some h) w in
            (match r with Ok n => Ok (negb (n =? 0)) | Raise e => Raise e end, f, w)
        else
          let '(r, w) := client_set h (key_str nkey) nvalue nx (Some ms) xx w in
          (r, f, w)
    | None =>
        let '(r, w) := client_set h (key_str nkey) nvalue nx None xx w in
        (r, f, w)
    end.

(** The body of the [try] of [set], from the frame at its entry to its
    outcome and the frame at its exit. *)
Definition set_try (c : client) (k : key) (ver : option Z) (nx xx : bool)
    (nkey : key) (nvalue : stored) (f : set_frame)
    : world -> (result bool * set_frame) * world :=
  fun w =>
    match set_acquire c f w with
    | (Raise e, w) => ((Raise e, f), w)
    | (Ok (h, f), w) => set_attempt c k ver nx xx nkey nvalue h f w
    end.

(** The [while True] of [set].  [budget] bounds the iterations; the
    source needs no more than [S (length _server)]. *)
Fixpoint set_loop (budget : nat) (c : client) (k : key) (ver : option Z)
    (original_client : option nat) (nx xx : bool) (nkey : key)
    (nvalue : stored) (f : set_frame) : M bool :=
  match budget with
  | O => raise LoopBudgetExhausted
  | S budget =>
      fun w =>
        match set_try c k ver nx xx nkey nvalue f w with
        | (Raise (Main e), f, w) =>
            if bool_decide (original_client = None)
               && negb (_replica_read_only c)
               && (length (f_tried f) <? length (_server c))%nat
            then
              match f_index f with
              | None => (Raise UnboundLocalError, w)
              | Some index =>
                  set_loop budget c k ver original_client nx xx nkey nvalue
                    {| f_client := None; f_index := f_index f;
                       f_timeout := f_timeout f;
                       f_tried := f_tried f ++ [index] |} w
              end
            else (Raise (ConnectionInterrupted (f_client f) e), w)
        | (r, _, w) => (r, w)
        end
  end.

Definition set (c : client) (k : key) (v : value) (timeout : timeout_arg)
    (ver : option Z) (cl : option nat) (nx xx : bool) : M bool :=
  let nkey := make_key (_backend c) k ver None in
  let nvalue := encode c v in
  let timeout := match timeout with
                 | DEFAULT_TIMEOUT => default_timeout (_backend c)
                 | Timeout t => t
                 end in
  set_loop (S (length (_server c))) c k ver cl nx xx nkey nvalue
    {| f_client := cl; f_index := None; f_timeout := timeout; f_tried := [] |}.


Definition get (c : client) (k : key) (default : value) (ver : option Z)
    (cl : option nat) : M value :=
  cl <- client_or_get c false cl ;;
  let k := make_key (_backend c) k ver None in
  value <- except_main (client_get cl (key_str k))
             (fun e => raise (ConnectionInterrupted (Some cl) e)) ;;
  match value with
  | None => ret default
  | Some b => lift (decode c (SBytes b))
  end.

Definition ttl (c : client) (k : key) (ver : option Z) (cl : option nat)
    : M (option Z) :=
  cl <- client_or_get c false cl ;;
  let k := make_key (_backend c) k ver None in
  n <- client_exists cl (key_str k) ;;
  if n =? 0 then ret (Some 0)
  else
    t <- client_ttl cl (key_str k) ;;
    if t >=? 0 then ret (Some t)
    else if t =? -1 then ret None
    else if t =? -2 then ret (Some 0)
    else ret None.

(** [collections.OrderedDict]: pairs in insertion order; assigning to a
    key already present keeps its position. *)
Fixpoint od_set {K V} (eqb : K -> K -> bool) (k : K) (v : V)
    (d : list (K * V)) : list (K * V) :=
  match d with
  | [] => [(k, v)]
  | (k', v') :: r =>
      if eqb k' k then (k', v) :: r else (k', v') :: od_set eqb k v r
  end.

(** Keys compare as the strings they are, [CacheKey] or not. *)
Definition key_eqb (a b : key) : bool := String.eqb (key_str a) (key_str b).

(** The loop of [get_many] over [zip(map_keys, results)]. *)
Fixpoint get_many_collect (c : client) (pairs : list ((string * key) * option bytes))
    (recovered_data : list (key * value)) : result (list (key * value)) :=
  match pairs with
  | [] => Ok recovered_data
  | ((_, original), None) :: r => get_many_collect c r recovered_data
  | ((_, original), Some b) :: r =>
      match decode c (SBytes b) with
      | Ok v => get_many_collect c r (od_set key_eqb original v recovered_data)
      | Raise e => Raise e
      end
  end.

Definition get_many (c : client) (keys : list key) (ver : option Z)
    (cl : option nat) : M (list (key * value)) :=
  cl <- client_or_get c false cl ;;
  match keys with
  | [] => ret []
  | _ :: _ =>
      let map_keys :=
        fold_left
          (fun d k => od_set String.eqb (key_str (make_key (_backend c) k ver None)) k d)
          keys [] in
      results <- except_main (client_mget cl (map fst map_keys))
                   (fun e => raise (ConnectionInterrupted (Some cl) e)) ;;
      lift (get_many_collect c (zip map_keys results) [])
  end.

(** ** AtomicCounter *)

(** [v + delta] for an [int] [delta]. *)
Definition py_add_int (v : value) (delta : Z) : result value :=
  if isinstance_int v then Ok (VInt (int_of_value v + delta))
  else Raise TypeError.

Definition _incr (c : client) (k : key) (delta : Z) (ver : option Z)
    (cl : option nat) (ignore_key_check : bool) : M value :=
  cl <- client_or_get c true cl ;;
  let k := make_key (_backend c) k ver None in
  except_main
    (except_ResponseError
       (value <- client_eval cl (negb ignore_key_check) (key_str k) delta ;;
        match value with
        | None => raise (KeyNotFound (key_str k))
        | Some n => ret (VInt n)
        end)
       (timeout <- ttl c k ver (Some cl) ;;
        if bool_decide (timeout = Some (-2)) then raise (KeyNotFound (key_str k))
        else
          current <- get c k VNone ver (Some cl) ;;
          value <- lift (py_add_int current delta) ;;
          _ <- set c k value (Timeout (num_of_int <$> timeout)) ver (Some cl) false false ;;
          ret value))
    (fun e => raise (ConnectionInterrupted (Some cl) e)).

Definition incr (c : client) (k : key) (delta : Z) (ver : option Z)
    (cl : option nat) (ignore_key_check : bool) : M value :=
  _incr c k delta ver cl ignore_key_check.

Definition decr (c : client) (k : key) (delta : Z) (ver : option Z)
    (cl : option nat) : M value :=
  _incr c k (- delta) ver cl false.

(** ** More of CacheOperations *)

(** [delete_many]; its [return] without a value is [None]. *)
Definition delete_many (c : client) (keys : list key) (ver : option Z)
    (cl : option nat) : M (option Z) :=
  cl <- client_or_get c true cl ;;
  let keys := map (λ k, make_key (_backend c) k ver None) keys in
  match keys with
  | [] => ret None
  | _ :: _ =>
      except_main
        (n <- client_delete cl (map key_str keys) ;; ret (Some n))
        (fun e => raise (ConnectionInterrupted (Some cl) e))
  end.

(** [incr_version].  [original_key] is the method of [CacheKey] that
    recovers the key a [CacheKey] was made from; it belongs to
    [django_redis.util] and is taken as given. *)
Definition incr_version (c : client) (original_key : string -> result string)
    (k : key) (delta : Z) (ver : option Z) (cl : option nat) : M Z :=
  cl <- client_or_get c true cl ;;
  let ver := match ver with None => version (_backend c) | Some v => v end in
  let old_key := make_key (_backend c) k (Some ver) None in
  value <- get c old_key VNone (Some ver) (Some cl) ;;
  ttl <- except_main (ttl c old_key (Some ver) (Some cl))
           (fun e => raise (ConnectionInterrupted (Some cl) e)) ;;
  match value with
  | VNone => raise (KeyNotFound (key_str k))
  | _ =>
      new_key <-
        match k with
        | CacheKey s =>
            o <- lift (original_key s) ;;
            ret (make_key (_backend c) (Plain o) (Some (ver + delta)) None)
        | Plain _ => ret (make_key (_backend c) k (Some (ver + delta)) None)
        end ;;
      _ <- set c new_key value (Timeout (num_of_int <$> ttl)) None (Some cl) false false ;;
      _ <- delete c old_key None None (Some cl) ;;
      ret (ver + delta)
  end.

(** ** The specification's wording of the escape *)

(** Each of [*], [?] and [[] is wrapped, alone, in a bracket class; any
    other character stands as it is. *)
Definition wrap_special (ch : ascii) : string :=
  if Ascii.eqb ch "*" || Ascii.eqb ch "?" || Ascii.eqb ch "["
  then String "[" (String ch (String "]" EmptyString))
  else String ch EmptyString.

Definition escape_each (s : string) : string :=
  String.concat "" (map wrap_special (String.list_ascii_of_string s)).

(** ** Small collaborators to run the model on *)

(** A serializer that writes one tag byte and then the payload. *)
Definition tag_dumps (v : value) : bytes :=
  match v with
  | VNone => b_ "N"
  | VBool true => b_ "T"
  | VBool false => b_ "F"
  | VInt n => b_ ("I" +:+ str_of_int n)
  | VStr s => b_ ("S" +:+ s)
  | VBytes b => b_ "B" ++ b
  end.

Definition tag_loads (b : bytes) : result value :=
  match b with
  | [x4e] => Ok VNone
  | [x54] => Ok (VBool true)
  | [x46] => Ok (VBool false)
  | x49 :: r =>
      match py_int_of_bytes r with
      | Some n => Ok (VInt n)
      | None => Raise SerializerError
      end
  | x53 :: r => Ok (VStr (String.string_of_list_byte r))
  | x42 :: r => Ok (VBytes r)
  | _ => Raise SerializerError
  end.

Definition tag_serializer : serializer :=
  {| dumps := tag_dumps; loads := tag_loads |}.

(** A serializer that writes text as it is, with no tag: what it writes
    for ["12"] is also the text of an integer. *)
Definition text_serializer : serializer :=
  {| dumps := fun v => match v with VStr s => b_ s | _ => tag_dumps v end;
     loads := fun b => Ok (VStr (String.string_of_list_byte b)) |}.

Definition example_backend : backend :=
  {| key_prefix := "p"; version := 1; default_timeout := Some (num_of_int 300);
     key_func := default_key_func |}.

(** A client of [n] servers. *)
Definition example_client (n : nat) (replica_read_only : bool) : client :=
  {| _backend := example_backend;
     _server := repeat "redis://cache" n;
     _replica_read_only := replica_read_only;
     _serializer := tag_serializer;
     _compressor := IdentityCompressor |}.

(** The world right after [__init__]: empty servers, no slot connected. *)
Definition fresh_world (n : nat) (fl : list (option main_exception))
    (rnd : list nat) : world :=
  {| servers := ∅; faults := fl; entropy := rnd;
     _clients := repeat None n; log := [] |}.

(** What [__init__] establishes and every method keeps: one slot per
    server, and at least one server. *)
Definition client_invariant (c : client) (w : world) : Prop :=
  length (_clients w) = length (_server c) ∧ (1 <= length (_server c))%nat.

(** ** Reading decimal text *)




(** A requested expiry that is there and is not positive. *)
Definition not_positive (px : option Z) : bool :=
  match px with
  | Some ms => ms <=? 0
  | None => false
  end.

(** A string free of the three glob characters. *)
Fixpoint no_special (s : string) : bool :=
  match s with
  | EmptyString => true
  | String ch rest => negb (bool_decide (ch ∈ special_re)) && no_special rest
  end.

(** The exceptions selection and the slots can raise. *)
Definition local_error (e : exn) : Prop := e = IndexError ∨ e = ValueError.

(** * Properties *)

(** ** KeyCodec *)

Example glob_escape_ex : glob_escape "a*b?c[d" = "a[*]b[?]c[[]d".
Proof. vm_compute. reflexivity. Qed.

Example str_of_int_ex :
  (str_of_int 0, str_of_int (-12), str_of_int 305) = ("0", "-12", "305").
Proof. vm_compute. reflexivity. Qed.

Lemma special_re_eqb (ch : ascii) :
  bool_decide (ch ∈ special_re)
  = Ascii.eqb ch "*" || Ascii.eqb ch "?" || Ascii.eqb ch "[".
Proof.
  unfold special_re.
  destruct (Ascii.eqb_spec ch "*") as [->|H1]; [reflexivity|].
  destruct (Ascii.eqb_spec ch "?") as [->|H2]; [reflexivity|].
  destruct (Ascii.eqb_spec ch "[") as [->|H3]; [reflexivity|].
  apply bool_decide_eq_false. rewrite !elem_of_cons, elem_of_nil. tauto.
Qed.

Lemma glob_escape_cons (ch : ascii) (s : string) :
  glob_escape (String ch s) = wrap_special ch +:+ glob_escape s.
Proof.
  unfold glob_escape, wrap_special. cbn [re_sub_class].
  rewrite special_re_eqb.
  destruct (Ascii.eqb ch "*" || Ascii.eqb ch "?" || Ascii.eqb ch "["); reflexivity.
Qed.

Lemma append_empty_r (s : string) : s +:+ "" = s.
Proof.
  induction s as [|ch s IH]; [reflexivity|].
  change (String ch (s +:+ "") = String ch s). rewrite IH. reflexivity.
Qed.

Lemma concat_empty_cons (x : string) (xs : list string) :
  String.concat "" (x :: xs) = x +:+ String.concat "" xs.
Proof.
  destruct xs as [|y ys]; cbn [String.concat].
  - rewrite append_empty_r. reflexivity.
  - reflexivity.
Qed.

Lemma glob_escape_escape_each (s : string) : glob_escape s = escape_each s.
Proof.
  unfold escape_each. induction s as [|ch s IH]; [reflexivity|].
  rewrite glob_escape_cons, IH. cbn [String.list_ascii_of_string map].
  rewrite concat_empty_cons. reflexivity.
Qed.

(** A pattern that is already a [CacheKey] is returned as it is. *)
Lemma make_pattern_CacheKey (b : backend) (s : string) (ver : option Z)
    (prefix : option string) :
  make_pattern b (CacheKey s) ver prefix = CacheKey s.
Proof. reflexivity. Qed.

(** C8: for every pattern, prefix and version, [make_pattern] hands the
    key function the pattern as the caller wrote it, the glob-escaped
    prefix and the glob-escaped text of the version; and glob-escaping is
    the character-by-character wrapping of [*], [?] and [[] in a bracket
    class of their own, every other character being kept. *)
Theorem make_pattern_escapes_prefix_and_version (b : backend) (pattern : string)
    (ver : option Z) (prefix : option string) :
  make_pattern b (Plain pattern) ver prefix
  = CacheKey (key_func b pattern
                (glob_escape (default (key_prefix b) prefix))
                (glob_escape (str_of_int (default (version b) ver))))
  ∧ (∀ s, glob_escape s = escape_each s)
  ∧ (∀ ch s, glob_escape (String ch s) = wrap_special ch +:+ glob_escape s)
  ∧ (wrap_special "*", wrap_special "?", wrap_special "[") = ("[*]", "[?]", "[[]")
  ∧ (∀ ch, ch ∉ special_re → wrap_special ch = String ch EmptyString).
Proof.
  split; [|split; [|split; [|split]]].
  - destruct ver, prefix; reflexivity.
  - apply glob_escape_escape_each.
  - apply glob_escape_cons.
  - reflexivity.
  - intros ch H. unfold wrap_special. rewrite <- special_re_eqb.
    rewrite bool_decide_eq_false_2; [reflexivity | exact H].
Qed.

Example make_pattern_ex :
  make_pattern example_backend (Plain "user:*") (Some 2) (Some "a*b")
  = CacheKey "a[*]b:2:user:*".
Proof. vm_compute. reflexivity. Qed.

(** ** ValueCodec *)

Example py_int_of_bytes_ex :
  map py_int_of_bytes [b_ "42"; b_ " -7 "; b_ "+1_000"; b_ "007"; b_ ""; b_ "1__0";
                       b_ "_1"; b_ "1_"; b_ "- 1"; b_ "12a"; b_ "true"]
  = [Some 42; Some (-7); Some 1000; Some 7; None; None; None; None; None; None; None].
Proof. vm_compute. reflexivity. Qed.

Lemma encode_int (c : client) (n : Z) : encode c (VInt n) = SInt n.
Proof. reflexivity. Qed.

Lemma encode_not_int (c : client) (v : value) :
  (∀ n, v ≠ VInt n) →
  encode c v = SBytes (compress (_compressor c) (dumps (_serializer c) v)).
Proof. intros H. destruct v; try reflexivity. exfalso. eapply H. reflexivity. Qed.

Lemma decode_bytes_not_int (c : client) (v : value) (raw packed : bytes) :
  py_int_of_bytes packed = None →
  loads (_serializer c) raw = Ok v →
  decompress (_compressor c) packed = Ok raw
  ∨ (decompress (_compressor c) packed = Raise CompressorError ∧ packed = raw) →
  decode c (SBytes packed) = Ok v.
Proof.
  intros Hint Hl [Hd | [Hd ->]]; unfold decode; cbn [py_int_of_stored stored_bytes];
    rewrite Hint, Hd; exact Hl.
Qed.

(** C1: a value the serializer reads back, and whose serialized form the
    compressor gives back (or leaves alone and reports as not compressed),
    survives [decode (encode v)]: an [int] that is not a [bool] travels as
    itself, anything else as compressed serialized bytes; the one case
    left out is when those bytes read as an integer literal, and then
    [decode] returns that integer. *)
Theorem decode_encode_round_trip (c : client) (v : value) :
  let raw := dumps (_serializer c) v in
  let packed := compress (_compressor c) raw in
  loads (_serializer c) raw = Ok v →
  (decompress (_compressor c) packed = Ok raw
   ∨ (decompress (_compressor c) packed = Raise CompressorError ∧ packed = raw)) →
  match v with
  | VInt n => encode c v = SInt n ∧ decode c (encode c v) = Ok v
  | _ =>
      encode c v = SBytes packed
      ∧ match py_int_of_bytes packed with
        | None => decode c (encode c v) = Ok v
        | Some n => decode c (encode c v) = Ok (VInt n)
        end
  end.
Proof.
  intros raw packed Hl Hd.
  assert (Hbytes : (∀ n, v ≠ VInt n) →
    encode c v = SBytes packed
    ∧ match py_int_of_bytes packed with
      | None => decode c (encode c v) = Ok v
      | Some n => decode c (encode c v) = Ok (VInt n)
      end).
  { intros Hv. rewrite (encode_not_int c v Hv). fold raw. fold packed.
    split; [reflexivity|].
    destruct (py_int_of_bytes packed) as [n|] eqn:E.
    - unfold decode. cbn [py_int_of_stored]. rewrite E. reflexivity.
    - eapply decode_bytes_not_int; eauto. }
  destruct v; try (apply Hbytes; congruence).
  split; reflexivity.
Qed.

Lemma decode_encode_round_trip_witness :
  decode (example_client 1 true) (encode (example_client 1 true) (VStr "hello"))
  = Ok (VStr "hello").
Proof.
  exact (proj2 (decode_encode_round_trip (example_client 1 true) (VStr "hello")
                  eq_refl (or_introl eq_refl))).
Defined.

(** The case the round trip leaves out, on a serializer writing bare text. *)
Example decode_encode_integer_literal :
  let c := {| _backend := example_backend; _server := ["redis://cache"];
              _replica_read_only := true; _serializer := text_serializer;
              _compressor := IdentityCompressor |} in
  loads (_serializer c) (dumps (_serializer c) (VStr "12")) = Ok (VStr "12")
  ∧ decode c (encode c (VStr "12")) = Ok (VInt 12).
Proof. vm_compute. split; reflexivity. Qed.

(** ** ReplicaSelector *)

(** Fewer failures than servers leave a server that has not failed. *)
Lemma not_tried_nonempty (n : nat) (tried : list nat) :
  (length tried < n)%nat → filter (λ i, i ∉ tried) (seq 0 n) ≠ [].
Proof.
  intros Hlt Hnil.
  assert (Hall : ∀ i, i ∈ seq 0 n → i ∈ tried).
  { intros i Hi. destruct (decide (i ∈ tried)) as [|Hni]; [assumption|].
    assert (Hf : i ∈ filter (λ i, i ∉ tried) (seq 0 n))
      by (apply list_elem_of_filter; split; assumption).
    rewrite Hnil in Hf. apply elem_of_nil in Hf. contradiction. }
  pose proof (submseteq_length _ _ (NoDup_submseteq _ _ (NoDup_seq 0 n) Hall)) as Hle.
  rewrite length_seq in Hle. lia.
Qed.

Lemma random_choice_elem {A} (l : list A) (w : world) :
  l ≠ [] →
  ∃ x w', random_choice l w = (Ok x, w') ∧ x ∈ l
          ∧ log w' = log w ∧ faults w' = faults w ∧ servers w' = servers w
          ∧ _clients w' = _clients w.
Proof.
  intros Hne. destruct l as [|a l]; [contradiction|].
  unfold random_choice, bind, draw.
  set (l' := a :: l).
  assert (Hlen : (0 < length l')%nat) by (cbn; lia).
  destruct (entropy w) as [|r rest].
  - destruct (lookup_lt_is_Some_2 l' (0 mod length l')%nat) as [x Hx].
    { apply Nat.mod_upper_bound. lia. }
    rewrite Hx. exists x, w. repeat split; try reflexivity.
    eapply list_elem_of_lookup_2; eassumption.
  - destruct (lookup_lt_is_Some_2 l' (r mod length l')%nat) as [x Hx].
    { apply Nat.mod_upper_bound. lia. }
    rewrite Hx. exists x, (set_entropy w rest). repeat split; try reflexivity.
    eapply list_elem_of_lookup_2; eassumption.
Qed.

Lemma random_randint_range (a b : Z) (w : world) :
  a <= b →
  ∃ i w', random_randint a b w = (Ok i, w') ∧ a <= i <= b
          ∧ log w' = log w ∧ faults w' = faults w ∧ servers w' = servers w
          ∧ _clients w' = _clients w.
Proof.
  intros Hab. unfold random_randint, bind, draw.
  destruct (Z.ltb_spec b a) as [|_]; [lia|].
  destruct (entropy w) as [|r rest].
  - exists (a + Z.of_nat 0 mod (b - a + 1)), w. repeat split; try reflexivity.
    + pose proof (Z.mod_pos_bound (Z.of_nat 0) (b - a + 1)). lia.
    + pose proof (Z.mod_pos_bound (Z.of_nat 0) (b - a + 1)). lia.
  - exists (a + Z.of_nat r mod (b - a + 1)), (set_entropy w rest).
    repeat split; try reflexivity.
    + pose proof (Z.mod_pos_bound (Z.of_nat r) (b - a + 1)). lia.
    + pose proof (Z.mod_pos_bound (Z.of_nat r) (b - a + 1)). lia.
Qed.

(** What selection returns, case by case, and what it leaves alone. *)
Lemma get_next_client_index_cases (c : client) (write : bool)
    (tried : option (list nat)) (w : world) :
  let n := length (_server c) in
  let already := default [] tried in
  (1 <= n)%nat →
  ∃ i w', get_next_client_index c write tried w = (Ok i, w')
    ∧ (i < n)%nat
    ∧ (if bool_decide (already = []) || negb (length already <? n)%nat
       then if write || (n =? 1)%nat then i = 0%nat else (1 <= i <= n - 1)%nat
       else i ∉ already)
    ∧ log w' = log w ∧ faults w' = faults w ∧ servers w' = servers w
    ∧ _clients w' = _clients w.
Proof.
  intros n already Hn. unfold get_next_client_index.
  replace (match tried with Some t => t | None => [] end) with already
    by (destruct tried; reflexivity).
  fold n.
  destruct (bool_decide (already = [])) eqn:Hnil; cbn [negb andb orb].
  - destruct (write || (n =? 1)%nat) eqn:Hw.
    + exists 0%nat, w. unfold ret. repeat split; try reflexivity. lia.
    + apply orb_false_iff in Hw as [_ Hn1]. apply Nat.eqb_neq in Hn1.
      destruct (random_randint_range 1 (Z.of_nat n - 1) w) as (i & w' & Hr & Hi & Hfr);
        [lia|].
      exists (Z.to_nat i), w'. unfold bind. rewrite Hr. unfold ret.
      repeat split; try apply Hfr; lia.
  - destruct (length already <? n)%nat eqn:Hlt; cbn [negb].
    + apply Nat.ltb_lt in Hlt.
      destruct (random_choice_elem (filter (λ i, i ∉ already) (seq 0 n)) w)
        as (i & w' & Hr & Hi & Hfr); [apply not_tried_nonempty; assumption|].
      apply list_elem_of_filter in Hi as [Hi1 Hi2]. apply elem_of_seq in Hi2.
      exists i, w'. repeat split; try apply Hfr; try assumption. lia.
    + destruct (write || (n =? 1)%nat) eqn:Hw.
      * exists 0%nat, w. unfold ret. repeat split; try reflexivity. lia.
      * apply orb_false_iff in Hw as [_ Hn1]. apply Nat.eqb_neq in Hn1.
        destruct (random_randint_range 1 (Z.of_nat n - 1) w) as (i & w' & Hr & Hi & Hfr);
          [lia|].
        exists (Z.to_nat i), w'. unfold bind. rewrite Hr. unfold ret.
        repeat split; try apply Hfr; lia.
Qed.

(** C5: with one server, selection returns index 0 for reads and writes
    and whatever has been tried; with several servers and nothing tried,
    a write gets index 0 and a read an index between 1 and N-1; with
    something tried, but fewer entries than servers, selection returns an
    index that has not been tried. *)
Theorem get_next_client_index_contract (c : client) (write : bool)
    (tried : option (list nat)) (w : world) :
  let n := length (_server c) in
  let already := default [] tried in
  let r := fst (get_next_client_index c write tried w) in
  (n = 1%nat → r = Ok 0%nat)
  ∧ ((1 < n)%nat → already = [] →
       if write then r = Ok 0%nat
       else ∃ i, r = Ok i ∧ (1 <= i <= n - 1)%nat ∧ i ≠ 0%nat)
  ∧ (already ≠ [] → (length already < n)%nat →
       ∃ i, r = Ok i ∧ (i ∉ already) ∧ (i < n)%nat).
Proof.
  intros n already r.
  split; [|split].
  - intros Hn.
    destruct (get_next_client_index_cases c write tried w) as (i & w' & Hr & _ & Hc & _);
      [fold n; lia|].
    fold n already in Hc. subst r. rewrite Hr. cbn [fst].
    destruct (bool_decide (already = [])) eqn:Hnil; cbn [orb] in Hc.
    + rewrite Hn, orb_true_r in Hc. congruence.
    + apply bool_decide_eq_false in Hnil.
      assert (Hlen : (1 <= length already)%nat)
        by (destruct already; [contradiction | cbn; lia]).
      destruct (Nat.ltb_spec (length already) n) as [|_]; [lia|].
      cbn [negb] in Hc. rewrite Hn, orb_true_r in Hc. congruence.
  - intros Hn Hnil.
    destruct (get_next_client_index_cases c write tried w) as (i & w' & Hr & _ & Hc & _);
      [fold n; lia|].
    fold n already in Hc. subst r. rewrite Hr. cbn [fst].
    rewrite bool_decide_eq_true_2 in Hc by assumption. cbn [orb] in Hc.
    destruct (Nat.eqb_spec n 1) as [|_]; [lia|].
    destruct write; cbn [orb] in Hc.
    + congruence.
    + exists i. repeat split; try lia.
  - intros Hne Hlt.
    destruct (get_next_client_index_cases c write tried w) as (i & w' & Hr & Hi & Hc & _);
      [fold n; lia|].
    fold n already in Hc. subst r. rewrite Hr. cbn [fst].
    rewrite bool_decide_eq_false_2 in Hc by assumption.
    destruct (Nat.ltb_spec (length already) n) as [_|]; [|lia].
    cbn [negb orb] in Hc. exists i. repeat split; assumption.
Qed.

Lemma get_next_client_index_contract_witness :
  fst (get_next_client_index (example_client 1 true) false (Some [0%nat])
         (fresh_world 1 [] [])) = Ok 0%nat
  ∧ fst (get_next_client_index (example_client 3 true) true None
           (fresh_world 3 [] [5%nat])) = Ok 0%nat
  ∧ (∃ i, fst (get_next_client_index (example_client 3 true) false None
                 (fresh_world 3 [] [5%nat])) = Ok i
          ∧ (1 <= i <= 3 - 1)%nat ∧ i ≠ 0%nat)
  ∧ (∃ i, fst (get_next_client_index (example_client 3 true) true (Some [0%nat; 2%nat])
                 (fresh_world 3 [] [5%nat])) = Ok i
          ∧ (i ∉ [0%nat; 2%nat]) ∧ (i < 3)%nat).
Proof.
  split; [|split; [|split]].
  - apply (get_next_client_index_contract (example_client 1 true) false (Some [0%nat])
             (fresh_world 1 [] [])). reflexivity.
  - apply (proj1 (proj2 (get_next_client_index_contract (example_client 3 true) true None
             (fresh_world 3 [] [5%nat]))));
      [cbn; lia | reflexivity].
  - apply (proj1 (proj2 (get_next_client_index_contract (example_client 3 true) false None
             (fresh_world 3 [] [5%nat]))));
      [cbn; lia | reflexivity].
  - apply (proj2 (proj2 (get_next_client_index_contract (example_client 3 true) true
             (Some [0%nat; 2%nat]) (fresh_world 3 [] [5%nat]))));
      [discriminate | cbn; lia].
Defined.

(** C9: with at least one server, selection returns an index of the
    server list, whatever has been tried; and when it picks at random
    among the servers not yet tried, there is one to pick, so that
    [random.choice] cannot fail on an empty list. *)
Theorem get_next_client_index_total (c : client) (write : bool)
    (tried : option (list nat)) (w : world) :
  let n := length (_server c) in
  let already := default [] tried in
  (1 <= n)%nat →
  (∀ i, i ∈ already → (i < n)%nat) →
  (∃ i w', get_next_client_index c write tried w = (Ok i, w') ∧ (i < n)%nat)
  ∧ (already ≠ [] → (length already < n)%nat →
       filter (λ i, i ∉ already) (seq 0 n) ≠ []).
Proof.
  intros n already Hn _. split.
  - destruct (get_next_client_index_cases c write tried w) as (i & w' & Hr & Hi & _);
      [assumption|].
    exists i, w'. split; assumption.
  - intros _ Hlt. apply not_tried_nonempty. assumption.
Qed.

Lemma get_next_client_index_total_witness :
  (∃ i w', get_next_client_index (example_client 3 false) true (Some [1%nat])
             (fresh_world 3 [] [4%nat]) = (Ok i, w') ∧ (i < 3)%nat)
  ∧ filter (λ i, i ∉ [1%nat]) (seq 0 3) ≠ [].
Proof.
  destruct (get_next_client_index_total (example_client 3 false) true (Some [1%nat])
              (fresh_world 3 [] [4%nat])) as [H1 H2].
  - cbn. lia.
  - intros i Hi. apply list_elem_of_singleton in Hi. subst i. cbn. lia.
  - split; [exact H1 | apply H2; [discriminate | cbn; lia]].
Defined.

(** ** ConnectionRegistry and transport *)

Lemma send_unfold {A} (conn : nat) (cmd : command)
    (run : gmap string entry -> result A * gmap string entry) (w : world) :
  send conn cmd run w
  = match next_fault w with
    | Some e => (Raise (Main e), set_faults (add_log w conn cmd) (tail (faults w)))
    | None =>
        (fst (run (db w conn)),
         set_servers (set_faults (add_log w conn cmd) (tail (faults w)))
           (<[conn := snd (run (db w conn))]> (servers w)))
    end.
Proof.
  unfold send. destruct (next_fault w); [reflexivity|].
  change (db (set_faults (add_log w conn cmd) (tail (faults w))) conn) with (db w conn).
  destruct (run (db w conn)); reflexivity.
Qed.

Lemma db_insert (w : world) (s : gmap nat (gmap string entry)) (conn i : nat)
    (d : gmap string entry) :
  db (set_servers w (<[conn := d]> s)) i
  = if decide (conn = i) then d else default ∅ (s !! i).
Proof.
  unfold db. cbn [servers set_servers]. rewrite lookup_insert.
  destruct (decide (conn = i)); reflexivity.
Qed.

Lemma get_next_client_index_frame (c : client) (write : bool)
    (tried : option (list nat)) (w : world) :
  let r := get_next_client_index c write tried w in
  log (snd r) = log w ∧ faults (snd r) = faults w ∧ servers (snd r) = servers w
  ∧ _clients (snd r) = _clients w
  ∧ (∀ e, fst r = Raise e → local_error e).
Proof.
  unfold get_next_client_index, random_choice, random_randint, draw, bind, ret, raise,
    local_error.
  repeat case_match; cbn; repeat split; try reflexivity; intros; simplify_eq; auto.
Qed.

Lemma get_client_frame (c : client) (write : bool) (tried : option (list nat))
    (w : world) :
  let r := get_client c write tried w in
  log (snd r) = log w ∧ faults (snd r) = faults w ∧ servers (snd r) = servers w
  ∧ (∀ e, fst r = Raise e → local_error e).
Proof.
  pose proof (get_next_client_index_frame c write tried w) as (Hl & Hf & Hs & Hc & He).
  unfold get_client, bind.
  destruct (get_next_client_index c write tried w) as [[i|e] w1]; cbn [fst snd] in *.
  - unfold clients_get, connect, clients_put, ret, raise, local_error.
    repeat case_match; cbn; rewrite ?Hl, ?Hf, ?Hs; repeat split; try reflexivity;
      intros; simplify_eq; auto.
  - repeat split; try assumption. intros e' [= <-]. apply He. reflexivity.
Qed.

Lemma client_invariant_get_client (c : client) (write : bool)
    (tried : option (list nat)) (w : world) :
  client_invariant c w →
  ∃ h i w', get_client c write tried w = (Ok (h, i), w')
            ∧ (i < length (_server c))%nat ∧ client_invariant c w'.
Proof.
  intros [Hlen Hn].
  destruct (get_next_client_index_cases c write tried w Hn)
    as (i & w1 & Hr & Hi & _ & _ & _ & _ & Hc).
  unfold get_client, bind. rewrite Hr.
  unfold clients_get.
  destruct (lookup_lt_is_Some_2 (_clients w1) i) as [slot Hslot];
    [rewrite Hc, Hlen; assumption|].
  rewrite Hslot. destruct slot as [h|].
  - exists h, i, w1. unfold ret. repeat split; try assumption.
    unfold client_invariant in *. rewrite Hc. assumption.
  - unfold connect.
    destruct (lookup_lt_is_Some_2 (_server c) i Hi) as [url Hurl]. rewrite Hurl.
    unfold ret, clients_put.
    destruct (Nat.ltb_spec i (length (_clients w1))) as [_|Hge];
      [|rewrite Hc, Hlen in Hge; lia].
    eexists i, i, _. repeat split; try assumption.
    cbn [_clients set_clients]. rewrite length_insert, Hc. assumption.
Qed.

(** ** delete and has_key *)

Lemma delete_handle (c : client) (k : key) (ver : option Z)
    (prefix : option string) (h : nat) (w : world) :
  let nkey := key_str (make_key (_backend c) k ver prefix) in
  let w1 := set_faults (add_log w h (DEL [nkey])) (tail (faults w)) in
  delete c k ver prefix (Some h) w
  = match next_fault w with
    | Some e => (Raise (ConnectionInterrupted (Some h) e), w1)
    | None =>
        (Ok (if bool_decide (is_Some (db w h !! nkey)) then 1 else 0),
         set_servers w1 (<[h := base.delete nkey (db w h)]> (servers w)))
    end.
Proof.
  intros nkey w1. unfold delete, client_or_get, bind, ret, except_main, client_delete.
  rewrite send_unfold. fold nkey. fold w1.
  destruct (next_fault w); [reflexivity|].
  unfold run_del. cbn [run_del_keys fst snd].
  destruct (bool_decide (is_Some (db w h !! nkey))); reflexivity.
Qed.

Lemma delete_None (c : client) (k : key) (ver : option Z)
    (prefix : option string) (w : world) :
  delete c k ver prefix None w
  = match get_client c true None w with
    | (Ok (h, _), w1) => delete c k ver prefix (Some h) w1
    | (Raise e, w1) => (Raise e, w1)
    end.
Proof.
  unfold delete, client_or_get, bind, ret.
  destruct (get_client c true None w) as [[[h i]|e] w1]; reflexivity.
Qed.

Lemma has_key_handle (c : client) (k : key) (ver : option Z) (h : nat)
    (w : world) :
  let nkey := key_str (make_key (_backend c) k ver None) in
  let w1 := set_faults (add_log w h (EXISTS nkey)) (tail (faults w)) in
  has_key c k ver (Some h) w
  = match next_fault w with
    | Some e => (Raise (ConnectionInterrupted (Some h) e), w1)
    | None =>
        (Ok (bool_decide (is_Some (db w h !! nkey))),
         set_servers w1 (<[h := db w h]> (servers w)))
    end.
Proof.
  intros nkey w1. unfold has_key, client_or_get, bind, ret, except_main, client_exists.
  rewrite send_unfold. fold nkey. fold w1.
  destruct (next_fault w); [reflexivity|].
  unfold run_exists. cbn [fst snd].
  destruct (bool_decide (is_Some (db w h !! nkey))); reflexivity.
Qed.

Lemma db_frame (w w1 : world) :
  servers w1 = servers w → ∀ i, db w1 i = db w i.
Proof. intros H i. unfold db. rewrite H. reflexivity. Qed.

Lemma next_fault_frame (w w1 : world) :
  faults w1 = faults w → next_fault w1 = next_fault w.
Proof. intros H. unfold next_fault. rewrite H. reflexivity. Qed.

(** What [delete] does to the world, whichever way the handle is found. *)
Lemma delete_effect (c : client) (k : key) (ver : option Z)
    (prefix : option string) (cl : option nat) (w : world) :
  let nkey := key_str (make_key (_backend c) k ver prefix) in
  let r := fst (delete c k ver prefix cl w) in
  let w' := snd (delete c k ver prefix cl w) in
  match r with
  | Ok n =>
      ∃ conn, log w' = log w ++ [(conn, DEL [nkey])]
        ∧ (∀ h, cl = Some h → conn = h)
        ∧ db w' conn = base.delete nkey (db w conn)
        ∧ (∀ i, i ≠ conn → db w' i = db w i)
        ∧ n = (if bool_decide (is_Some (db w conn !! nkey)) then 1 else 0)
  | Raise e =>
      (∀ i, db w' i = db w i)
      ∧ (log w' = log w ∨ ∃ conn, log w' = log w ++ [(conn, DEL [nkey])])
      ∧ (∀ e', e ≠ Main e') ∧ e ≠ LoopBudgetExhausted
  end.
Proof.
  intros nkey.
  assert (Hh : ∀ h w0, servers w0 = servers w → faults w0 = faults w → log w0 = log w →
    (∀ h', cl = Some h' → h = h') →
    match fst (delete c k ver prefix (Some h) w0) with
    | Ok n =>
        ∃ conn, log (snd (delete c k ver prefix (Some h) w0)) = log w ++ [(conn, DEL [nkey])]
          ∧ (∀ h, cl = Some h → conn = h)
          ∧ db (snd (delete c k ver prefix (Some h) w0)) conn = base.delete nkey (db w conn)
          ∧ (∀ i, i ≠ conn → db (snd (delete c k ver prefix (Some h) w0)) i = db w i)
          ∧ n = (if bool_decide (is_Some (db w conn !! nkey)) then 1 else 0)
    | Raise e =>
        (∀ i, db (snd (delete c k ver prefix (Some h) w0)) i = db w i)
        ∧ (log (snd (delete c k ver prefix (Some h) w0)) = log w
           ∨ ∃ conn, log (snd (delete c k ver prefix (Some h) w0)) = log w ++ [(conn, DEL [nkey])])
        ∧ (∀ e', e ≠ Main e') ∧ e ≠ LoopBudgetExhausted
    end).
  { intros h w0 Hs Hf Hl Hcl. rewrite delete_handle. fold nkey.
    destruct (next_fault w0); cbn [fst snd].
    - split; [|split; [|split]].
      + intros i. apply db_frame. exact Hs.
      + right. exists h. cbn [log set_faults add_log]. rewrite Hl. reflexivity.
      + discriminate.
      + discriminate.
    - exists h. split; [|split; [|split; [|split]]].
      + cbn [log set_servers set_faults add_log]. rewrite Hl. reflexivity.
      + intros h' E. apply Hcl. exact E.
      + rewrite db_insert, decide_True by reflexivity.
        rewrite (db_frame w w0 Hs). reflexivity.
      + intros i Hi. rewrite db_insert, decide_False by congruence.
        cbn [servers set_faults add_log]. rewrite Hs. reflexivity.
      + rewrite (db_frame w w0 Hs). reflexivity. }
  destruct cl as [h|]; cbn zeta.
  - apply Hh; try reflexivity. intros h' [= ->]. reflexivity.
  - rewrite delete_None.
    pose proof (get_client_frame c true None w) as (Hl & Hf & Hs & He).
    destruct (get_client c true None w) as [[[h i]|e] w1]; cbn [fst snd] in *.
    + apply Hh; try assumption. discriminate.
    + split; [|split; [|split]].
      * apply db_frame. exact Hs.
      * left. exact Hl.
      * intros e' ->. destruct (He _ eq_refl); discriminate.
      * intros ->. destruct (He _ eq_refl); discriminate.
Qed.

(** With a requested timeout that is not positive in milliseconds and
    without [nx], [set] is [delete], outcome and world. *)
Lemma set_nonpositive_timeout_delete (c : client) (k : key) (v : value)
    (t : pynum) (ver : option Z) (cl : option nat) (xx : bool) (w : world) :
  py_int_of_num (times_1000 t) <= 0 →
  set c k v (Timeout (Some t)) ver cl false xx w
  = (bool_of_count (fst (delete c k ver None cl w)), snd (delete c k ver None cl w)).
Proof.
  intros Hms. apply Z.leb_le in Hms.
  assert (Hh : ∀ f b oc w0, f_timeout f = Some t →
    set_loop (S b) c k ver oc false xx (make_key (_backend c) k ver None)
      (encode c v) f w0
    = match set_acquire c f w0 with
      | (Raise e, w1) =>
          set_loop (S b) c k ver oc false xx (make_key (_backend c) k ver None)
            (encode c v) f w0
      | (Ok (h, f1), w1) =>
          (bool_of_count (fst (delete c k ver None (Some h) w1)),
           snd (delete c k ver None (Some h) w1))
      end).
  { intros f b oc w0 Ht. cbn [set_loop]. unfold set_try.
    destruct (set_acquire c f w0) as [[[h f1]|e] w1] eqn:Ha; [|reflexivity].
    assert (Ht1 : f_timeout f1 = Some t).
    { unfold set_acquire in Ha. destruct (f_client f).
      - injection Ha as <- <- <-. exact Ht.
      - destruct (get_client c true (Some (f_tried f)) w0) as [[[h' i']|e'] w']; [|discriminate].
        injection Ha as <- <- <-. exact Ht. }
    unfold set_attempt. rewrite Ht1, Hms.
    pose proof (delete_effect c k ver None (Some h) w1) as He. cbn zeta in He.
    destruct (delete c k ver None (Some h) w1) as [[n|e] w2]; cbn [fst snd] in *.
    - reflexivity.
    - destruct He as (_ & _ & Hm & _). destruct e; try reflexivity.
      exfalso. eapply Hm. reflexivity. }
  unfold set. rewrite Hh by reflexivity.
  unfold set_acquire. cbn [f_client f_tried].
  destruct cl as [h|]; [reflexivity|].
  rewrite delete_None.
  change (get_client c true (Some [])) with (get_client c true None).
  pose proof (get_client_frame c true None w) as (_ & _ & _ & He).
  destruct (get_client c true None w) as [[[h i]|e] w1] eqn:Hg; cbn [fst snd] in *.
  - reflexivity.
  - cbn [set_loop]. unfold set_try, set_acquire. cbn [f_client f_tried].
    change (get_client c true (Some [])) with (get_client c true None).
    rewrite Hg. destruct (He _ eq_refl) as [-> | ->]; reflexivity.
Qed.

(** C6: [set(k, v, 0)] without [nx] is [delete(k)], for every key, value
    and [xx]: same outcome (the count as a [bool]) and same world, also
    when the transport fails; the only command it can add to the log is
    the [DEL] of the key, no [SET]; every other key of every server is
    left as it was; and when it returns, the key is gone and the result
    tells whether it was there. *)
Theorem set_zero_timeout_is_delete (c : client) (k : key) (v : value)
    (ver : option Z) (cl : option nat) (xx : bool) (w : world) :
  let nkey := key_str (make_key (_backend c) k ver None) in
  let r := fst (set c k v (Timeout (Some (num_of_int 0))) ver cl false xx w) in
  let w' := snd (set c k v (Timeout (Some (num_of_int 0))) ver cl false xx w) in
  (r, w') = (bool_of_count (fst (delete c k ver None cl w)),
             snd (delete c k ver None cl w))
  ∧ (∀ x, x ∈ log w' → x ∈ log w ∨ snd x = DEL [nkey])
  ∧ (∀ conn k', k' ≠ nkey → db w' conn !! k' = db w conn !! k')
  ∧ match r with
    | Ok deleted =>
        ∃ conn, log w' = log w ++ [(conn, DEL [nkey])]
          ∧ (∀ h, cl = Some h → conn = h)
          ∧ db w' conn = base.delete nkey (db w conn)
          ∧ (∀ i, i ≠ conn → db w' i = db w i)
          ∧ deleted = bool_decide (is_Some (db w conn !! nkey))
    | Raise _ => ∀ i, db w' i = db w i
    end.
Proof.
  intros nkey r w'. subst r w'.
  rewrite (set_nonpositive_timeout_delete c k v (num_of_int 0) ver cl xx w)
    by (vm_compute; discriminate).
  cbn [fst snd].
  pose proof (delete_effect c k ver None cl w) as He. cbn zeta in He. fold nkey in He.
  destruct (delete c k ver None cl w) as [[n|e] w1]; cbn [fst snd bool_of_count] in *.
  - destruct He as (conn & Hl & Hcl & Hd & Ho & Hn).
    split; [reflexivity|]. split; [|split].
    + intros x Hx. rewrite Hl in Hx. apply elem_of_app in Hx as [Hx|Hx]; [left; exact Hx|].
      right. apply list_elem_of_singleton in Hx. subst x. reflexivity.
    + intros i k' Hk. destruct (decide (i = conn)) as [->|Hi].
      * rewrite Hd. apply lookup_delete_ne. congruence.
      * rewrite Ho by exact Hi. reflexivity.
    + exists conn. repeat split; try assumption.
      rewrite Hn. destruct (bool_decide (is_Some (db w conn !! nkey))); reflexivity.
  - destruct He as (Hdb & Hl & _).
    split; [reflexivity|]. split; [|split].
    + intros x Hx. destruct Hl as [Hl | [conn Hl]]; rewrite Hl in Hx.
      * left. exact Hx.
      * apply elem_of_app in Hx as [Hx|Hx]; [left; exact Hx|].
        right. apply list_elem_of_singleton in Hx. subst x. reflexivity.
    + intros i k' _. rewrite Hdb. reflexivity.
    + exact Hdb.
Qed.

(** An iteration whose [try] does not end in one of [_main_exceptions]
    is the last one. *)
Lemma set_loop_settled (b : nat) (c : client) (k : key) (ver : option Z)
    (oc : option nat) (nx xx : bool) (nkey : key) (nvalue : stored)
    (f : set_frame) (w : world) :
  (∀ e, fst (fst (set_try c k ver nx xx nkey nvalue f w)) ≠ Raise (Main e)) →
  set_loop (S b) c k ver oc nx xx nkey nvalue f w
  = (fst (fst (set_try c k ver nx xx nkey nvalue f w)),
     snd (set_try c k ver nx xx nkey nvalue f w)).
Proof.
  intros H. cbn [set_loop].
  destruct (set_try c k ver nx xx nkey nvalue f w) as [[r f'] w']. cbn [fst snd] in *.
  destruct r as [|[]]; try reflexivity. exfalso. eapply H. reflexivity.
Qed.

(** The [nx] branch of a timeout that is not positive: one [EXISTS]. *)
Lemma set_attempt_nx_probe (c : client) (k : key) (ver : option Z) (xx : bool)
    (nkey0 : key) (nvalue : stored) (h : nat) (f : set_frame) (t : pynum)
    (w : world) :
  f_timeout f = Some t →
  py_int_of_num (times_1000 t) <= 0 →
  let nkey := key_str (make_key (_backend c) k ver None) in
  let w1 := set_faults (add_log w h (EXISTS nkey)) (tail (faults w)) in
  let f1 := {| f_client := f_client f; f_index := f_index f;
               f_timeout := Some (num_of_int (py_int_of_num (times_1000 t)));
               f_tried := f_tried f |} in
  set_attempt c k ver true xx nkey0 nvalue h f w
  = match next_fault w with
    | Some e => (Raise (ConnectionInterrupted (Some h) e), f1, w1)
    | None =>
        (Ok (negb (bool_decide (is_Some (db w h !! nkey)))), f1,
         set_servers w1 (<[h := db w h]> (servers w)))
    end.
Proof.
  intros Ht Hms nkey w1 f1. apply Z.leb_le in Hms.
  unfold set_attempt. rewrite Ht, Hms, has_key_handle.
  destruct (next_fault w); reflexivity.
Qed.

(** C7: [set] with [nx] and a finite timeout that is not positive once
    in milliseconds changes no key of any server, value or expiry; the
    only command it sends is one [EXISTS] of the key; when it returns,
    the result is the negation of "the key exists"; and it does return
    when the transport does not fail (on a caller's handle, or on a
    client as [__init__] leaves it). *)
Theorem set_nx_nonpositive_timeout_is_probe (c : client) (k : key) (v : value)
    (t : pynum) (ver : option Z) (cl : option nat) (xx : bool) (w : world) :
  py_int_of_num (times_1000 t) <= 0 →
  let nkey := key_str (make_key (_backend c) k ver None) in
  let r := fst (set c k v (Timeout (Some t)) ver cl true xx w) in
  let w' := snd (set c k v (Timeout (Some t)) ver cl true xx w) in
  (∀ conn, db w' conn = db w conn)
  ∧ (∀ x, x ∈ log w' → x ∈ log w ∨ snd x = EXISTS nkey)
  ∧ (∀ b, r = Ok b →
       ∃ conn, log w' = log w ++ [(conn, EXISTS nkey)]
         ∧ (∀ h, cl = Some h → conn = h)
         ∧ b = negb (bool_decide (is_Some (db w conn !! nkey))))
  ∧ (is_Some cl ∨ client_invariant c w → next_fault w = None → ∃ b, r = Ok b).
Proof.
  intros Hms nkey r w'.
  assert (Hh : ∀ h f w0, f_timeout f = Some t →
    servers w0 = servers w → faults w0 = faults w → log w0 = log w →
    (∀ h', cl = Some h' → h = h') →
    let o := set_attempt c k ver true xx (make_key (_backend c) k ver None)
               (encode c v) h f w0 in
    (∀ e, fst (fst o) ≠ Raise (Main e))
    ∧ (∀ conn, db (snd o) conn = db w conn)
    ∧ (∀ x, x ∈ log (snd o) → x ∈ log w ∨ snd x = EXISTS nkey)
    ∧ (∀ b, fst (fst o) = Ok b →
         ∃ conn, log (snd o) = log w ++ [(conn, EXISTS nkey)]
           ∧ (∀ h, cl = Some h → conn = h)
           ∧ b = negb (bool_decide (is_Some (db w conn !! nkey))))
    ∧ (next_fault w = None → ∃ b, fst (fst o) = Ok b)).
  { intros h f w0 Ht Hs Hf Hl Hcl o. subst o.
    rewrite (set_attempt_nx_probe c k ver xx _ _ h f t w0 Ht Hms). fold nkey.
    rewrite (next_fault_frame w w0 Hf).
    destruct (next_fault w) as [e|]; cbn [fst snd].
    - split; [discriminate|]. split; [|split; [|split]].
      + intros conn. apply db_frame. exact Hs.
      + intros x Hx. cbn [log set_faults add_log] in Hx. rewrite Hl in Hx.
        apply elem_of_app in Hx as [Hx|Hx]; [left; exact Hx|].
        right. apply list_elem_of_singleton in Hx. subst x. reflexivity.
      + discriminate.
      + discriminate.
    - split; [discriminate|]. split; [|split; [|split]].
      + intros conn. rewrite db_insert. destruct (decide (h = conn)) as [->|Hne].
        * apply db_frame. exact Hs.
        * cbn [servers set_faults add_log]. unfold db. rewrite Hs. reflexivity.
      + intros x Hx. cbn [log set_servers set_faults add_log] in Hx. rewrite Hl in Hx.
        apply elem_of_app in Hx as [Hx|Hx]; [left; exact Hx|].
        right. apply list_elem_of_singleton in Hx. subst x. reflexivity.
      + intros b [= <-]. exists h. split; [|split].
        * cbn [log set_servers set_faults add_log]. rewrite Hl. reflexivity.
        * exact Hcl.
        * rewrite (db_frame w w0 Hs). reflexivity.
      + intros _. eexists. reflexivity. }
  set (f0 := {| f_client := cl; f_index := None; f_timeout := Some t; f_tried := [] |}).
  assert (HT :
    let o := set_try c k ver true xx (make_key (_backend c) k ver None)
               (encode c v) f0 w in
    (∀ e, fst (fst o) ≠ Raise (Main e))
    ∧ (∀ conn, db (snd o) conn = db w conn)
    ∧ (∀ x, x ∈ log (snd o) → x ∈ log w ∨ snd x = EXISTS nkey)
    ∧ (∀ b, fst (fst o) = Ok b →
         ∃ conn, log (snd o) = log w ++ [(conn, EXISTS nkey)]
           ∧ (∀ h, cl = Some h → conn = h)
           ∧ b = negb (bool_decide (is_Some (db w conn !! nkey))))
    ∧ (is_Some cl ∨ client_invariant c w → next_fault w = None →
         ∃ b, fst (fst o) = Ok b)).
  { unfold set_try, set_acquire. subst f0. cbn [f_client f_tried].
    destruct cl as [h|].
    - destruct (Hh h {| f_client := Some h; f_index := None; f_timeout := Some t;
                        f_tried := [] |} w eq_refl eq_refl eq_refl eq_refl)
        as (Hm & Hdb & Hlog & Hok & Hret); [intros h' [= ->]; reflexivity|].
      repeat split; try assumption. intros _ Hnf. apply Hret. exact Hnf.
    - change (get_client c true (Some [])) with (get_client c true None).
      pose proof (get_client_frame c true None w) as (Hl & Hf & Hs & He).
      pose proof (client_invariant_get_client c true None w) as Hinv.
      destruct (get_client c true None w) as [[[h i]|e] w1]; cbn [fst snd] in *.
      + destruct (Hh h {| f_client := Some h; f_index := Some i; f_timeout := Some t;
                          f_tried := [] |} w1 eq_refl Hs Hf Hl)
          as (Hm & Hdb & Hlog & Hok & Hret); [discriminate|].
        repeat split; try assumption. intros _ Hnf. apply Hret. exact Hnf.
      + cbn zeta. cbn [fst snd]. split; [|split; [|split; [|split]]].
        * intros e' [= ->]. destruct (He _ eq_refl); discriminate.
        * apply db_frame. exact Hs.
        * intros x Hx. left. rewrite <- Hl. exact Hx.
        * intros b [=].
        * intros [[? [=]] | Hi] _. destruct (Hinv Hi) as (? & ? & ? & [=] & _). }
  subst r w'. unfold set. fold f0.
  rewrite set_loop_settled by apply HT.
  cbn [fst snd]. apply HT.
Qed.

Lemma set_nx_nonpositive_timeout_is_probe_witness :
  let c := example_client 1 true in
  let w := snd (set c (Plain "x") (VInt 42) (Timeout None) None None false false
                  (fresh_world 1 [] [])) in
  let o := set c (Plain "x") (VInt 7) (Timeout (Some (num_of_int (-5)))) None None
             true false w in
  py_int_of_num (times_1000 (num_of_int (-5))) <= 0
  ∧ db w 0%nat !! "p:1:x" = Some {| e_value := b_ "42"; e_pttl := None |}
  ∧ fst o = Ok false
  ∧ ∀ conn, db (snd o) conn = db w conn.
Proof.
  intros c w o.
  assert (H : py_int_of_num (times_1000 (num_of_int (-5))) <= 0)
    by (vm_compute; discriminate).
  split; [exact H|]. split; [vm_compute; reflexivity|]. split; [vm_compute; reflexivity|].
  exact (proj1 (set_nx_nonpositive_timeout_is_probe c (Plain "x") (VInt 7)
                  (num_of_int (-5)) None None false w H)).
Defined.

(** ** get_many *)

(** C10: [get_many] on no keys sends no command at all, so no [MGET],
    and leaves servers and transport as they were; it cannot raise a
    connection-interrupted error; and it returns the empty mapping, on a
    caller's handle or on a client as [__init__] leaves it. *)
Theorem get_many_no_keys (c : client) (ver : option Z) (cl : option nat)
    (w : world) :
  let r := fst (get_many c [] ver cl w) in
  let w' := snd (get_many c [] ver cl w) in
  log w' = log w ∧ faults w' = faults w ∧ servers w' = servers w
  ∧ (∀ conn e, r ≠ Raise (ConnectionInterrupted conn e))
  ∧ (is_Some cl ∨ client_invariant c w → r = Ok []).
Proof.
  unfold get_many, client_or_get, bind. destruct cl as [h|]; cbn zeta.
  - cbn. repeat split; try reflexivity. discriminate.
  - pose proof (get_client_frame c false None w) as (Hl & Hf & Hs & He).
    pose proof (client_invariant_get_client c false None w) as Hinv.
    destruct (get_client c false None w) as [[[h i]|e] w1]; cbn [fst snd ret] in *.
    + repeat split; try assumption. discriminate.
    + repeat split; try assumption.
      * intros conn e' [= ->]. destruct (He _ eq_refl); discriminate.
      * intros [[? [=]] | Hi]. destruct (Hinv Hi) as (? & ? & ? & [=] & _).
Qed.

Lemma get_many_no_keys_witness :
  fst (get_many (example_client 3 true) [] None None
         (fresh_world 3 [Some ConnectionError] [1%nat])) = Ok [].
Proof.
  apply (get_many_no_keys (example_client 3 true) None None
           (fresh_world 3 [Some ConnectionError] [1%nat])).
  right. split; [reflexivity | cbn; lia].
Defined.

Example get_many_ex :
  let c := example_client 1 true in
  fst ((_ <- set c (Plain "a") (VInt 1) (Timeout None) None None false false ;;
        _ <- set c (Plain "b") (VStr "two") (Timeout None) None None false false ;;
        get_many c [Plain "a"; Plain "b"; Plain "c"] None None) (fresh_world 1 [] []))
  = Ok [(Plain "a", VInt 1); (Plain "b", VStr "two")].
Proof. vm_compute. reflexivity. Qed.

(** ** The loop of set *)

Lemma set_acquire_outcome (c : client) (f : set_frame) (w : world) :
  match set_acquire c f w with
  | (Ok (h, f'), _) => f_tried f' = f_tried f ∧ f_timeout f' = f_timeout f
  | (Raise e, _) => local_error e
  end.
Proof.
  unfold set_acquire. destruct (f_client f); [split; reflexivity|].
  pose proof (get_client_frame c true (Some (f_tried f)) w) as (_ & _ & _ & He).
  destruct (get_client c true (Some (f_tried f)) w) as [[[h i]|e] w1]; cbn [fst snd] in *.
  - split; reflexivity.
  - apply He. reflexivity.
Qed.

(** One attempt keeps [tried], and rebinds [timeout] to the milliseconds
    it has just computed. *)
Lemma set_attempt_outcome (c : client) (k : key) (ver : option Z) (nx xx : bool)
    (nkey : key) (nvalue : stored) (h : nat) (f : set_frame) (w : world) :
  let o := set_attempt c k ver nx xx nkey nvalue h f w in
  f_tried (snd (fst o)) = f_tried f
  ∧ f_timeout (snd (fst o))
    = (λ t, num_of_int (py_int_of_num (times_1000 t))) <$> f_timeout f
  ∧ fst (fst o) ≠ Raise LoopBudgetExhausted.
Proof.
  unfold set_attempt. destruct (f_timeout f) as [t|] eqn:Ht; cbn [fmap option_fmap option_map].
  - destruct (py_int_of_num (times_1000 t) <=? 0).
    + destruct nx.
      * rewrite has_key_handle. destruct (next_fault w); cbn; repeat split; first [reflexivity | discriminate | assumption].
      * rewrite delete_handle. destruct (next_fault w); cbn; repeat split; first [reflexivity | discriminate | assumption].
    + unfold client_set. rewrite send_unfold. unfold run_set.
      destruct (next_fault w); [cbn; repeat split; first [reflexivity | discriminate | assumption]|].
      repeat case_match; cbn; repeat split; first [reflexivity | discriminate | assumption].
  - unfold client_set. rewrite send_unfold. unfold run_set.
    destruct (next_fault w); [cbn; repeat split; first [reflexivity | discriminate | assumption]|].
    repeat case_match; cbn; repeat split; first [reflexivity | discriminate | assumption].
Qed.

Lemma set_try_outcome (c : client) (k : key) (ver : option Z) (nx xx : bool)
    (nkey : key) (nvalue : stored) (f : set_frame) (w : world) :
  let o := set_try c k ver nx xx nkey nvalue f w in
  f_tried (snd (fst o)) = f_tried f
  ∧ fst (fst o) ≠ Raise LoopBudgetExhausted.
Proof.
  unfold set_try. pose proof (set_acquire_outcome c f w) as Ha.
  destruct (set_acquire c f w) as [[[h f1]|e] w1].
  - destruct Ha as [Ht _].
    pose proof (set_attempt_outcome c k ver nx xx nkey nvalue h f1 w1) as (H1 & _ & H3).
    cbn zeta. rewrite H1, Ht. split; [reflexivity | exact H3].
  - cbn. split; [reflexivity|]. intros [= ->]. destruct Ha; discriminate.
Qed.

Lemma set_loop_within_budget (c : client) (k : key) (ver : option Z)
    (oc : option nat) (nx xx : bool) (nkey : key) (nvalue : stored) (budget : nat) :
  ∀ (f : set_frame) (w : world),
    (length (_server c) - length (f_tried f) < budget)%nat →
    fst (set_loop budget c k ver oc nx xx nkey nvalue f w) ≠ Raise LoopBudgetExhausted.
Proof.
  induction budget as [|b IH]; intros f w Hb; [lia|].
  cbn [set_loop].
  pose proof (set_try_outcome c k ver nx xx nkey nvalue f w) as [Ht Hne].
  destruct (set_try c k ver nx xx nkey nvalue f w) as [[r f'] w']. cbn [fst snd] in *.
  destruct r as [a|e]; [discriminate|].
  destruct e; try (cbn; congruence).
  destruct (bool_decide (oc = None) && negb (_replica_read_only c)
            && (length (f_tried f') <? length (_server c))%nat) eqn:Hc;
    [|discriminate].
  apply andb_true_iff in Hc as [_ Hlt]. apply Nat.ltb_lt in Hlt.
  destruct (f_index f'); [|discriminate].
  apply IH. cbn [f_tried]. rewrite length_app. cbn [length]. rewrite Ht in *. lia.
Qed.

(** The budget [set] gives its loop is never used up: the source's
    [while True] ends, within [S (length _server)] iterations. *)
Lemma set_within_budget (c : client) (k : key) (v : value) (timeout : timeout_arg)
    (ver : option Z) (cl : option nat) (nx xx : bool) (w : world) :
  fst (set c k v timeout ver cl nx xx w) ≠ Raise LoopBudgetExhausted.
Proof.
  unfold set. apply set_loop_within_budget. cbn [f_tried length]. lia.
Qed.

(** C2: the milliseconds passed to [SET] on a retry.  Each pass through
    the [try] rebinds [timeout] to the milliseconds it has computed, and
    the next pass multiplies that by 1000 again: with [timeout=1], two
    servers, retries allowed and a first [SET] that fails, the first
    [SET] carries [px=1000], the retry [px=1000000]. *)
Theorem set_retry_converts_timeout_again :
  (∀ c k ver nx xx nkey nvalue h f w t,
     f_timeout f = Some t →
     f_timeout (snd (fst (set_attempt c k ver nx xx nkey nvalue h f w)))
     = Some (num_of_int (py_int_of_num (times_1000 t)))
     ∧ py_int_of_num (times_1000 (num_of_int (py_int_of_num (times_1000 t))))
       = py_int_of_num (times_1000 t) * 1000)
  ∧ let c := example_client 2 false in
    let o := set c (Plain "x") (VStr "a") (Timeout (Some (num_of_int 1))) None None
               false false (fresh_world 2 [Some ConnectionError] []) in
    py_int_of_num (times_1000 (num_of_int 1)) = 1000
    ∧ fst o = Ok true
    ∧ log (snd o)
      = [(0%nat, SET "p:1:x" (SBytes (b_ "Sa")) false (Some 1000) false);
         (1%nat, SET "p:1:x" (SBytes (b_ "Sa")) false (Some 1000000) false)].
Proof.
  split.
  - intros c k ver nx xx nkey nvalue h f w t Ht.
    pose proof (set_attempt_outcome c k ver nx xx nkey nvalue h f w) as (_ & H & _).
    cbn zeta in H. rewrite H, Ht. split; [reflexivity|].
    unfold py_int_of_num, times_1000, num_of_int. cbn [Qnum Qden].
    rewrite !Z.quot_1_r. reflexivity.
  - vm_compute. repeat split; reflexivity.
Qed.

(** C4: which index a retry of [set] goes to.  [len(tried) < len(server)]
    is tested before the failed index is added to [tried]: when every
    server has failed, [set] still retries once, and selection, given a
    full [tried], returns index 0 again.  With one server, index 0 gets
    the [SET] twice; with two, the order is 0, 1, 0. *)
Theorem set_retries_a_tried_index :
  let o1 := set (example_client 1 false) (Plain "x") (VStr "a") (Timeout None) None None
              false false
              (fresh_world 1 [Some ConnectionError; Some TimeoutError] []) in
  let o2 := set (example_client 2 false) (Plain "x") (VStr "a") (Timeout None) None None
              false false
              (fresh_world 2 [Some ConnectionError; Some ConnectionError;
                              Some TimeoutError] []) in
  fst o1 = Raise (ConnectionInterrupted (Some 0%nat) TimeoutError)
  ∧ map fst (log (snd o1)) = [0%nat; 0%nat]
  ∧ fst o2 = Raise (ConnectionInterrupted (Some 0%nat) TimeoutError)
  ∧ map fst (log (snd o2)) = [0%nat; 1%nat; 0%nat]
  ∧ fst (get_next_client_index (example_client 1 false) true (Some [0%nat])
           (fresh_world 1 [] [])) = Ok 0%nat.
Proof. vm_compute. repeat split; reflexivity. Qed.

(** ** AtomicCounter *)

Lemma make_key_made (b : backend) (k : key) (ver ver' : option Z)
    (prefix prefix' : option string) :
  make_key b (make_key b k ver prefix) ver' prefix' = make_key b k ver prefix.
Proof. destruct k; reflexivity. Qed.

Lemma ttl_None (c : client) (k : key) (ver : option Z) (w : world) :
  ttl c k ver None w
  = match get_client c false None w with
    | (Ok (h, _), w1) => ttl c k ver (Some h) w1
    | (Raise e, w1) => (Raise e, w1)
    end.
Proof.
  unfold ttl, client_or_get, bind, ret.
  destruct (get_client c false None w) as [[[h i]|e] w1]; reflexivity.
Qed.

(** [ttl] answers [0], [None] or a count that is not negative: never -2. *)
Lemma ttl_never_minus_two (c : client) (k : key) (ver : option Z)
    (cl : option nat) (w : world) :
  fst (ttl c k ver cl w) ≠ Ok (Some (-2)).
Proof.
  assert (Hh : ∀ h w0, fst (ttl c k ver (Some h) w0) ≠ Ok (Some (-2))).
  { intros h w0. unfold ttl, client_or_get, bind, ret.
    destruct (client_exists h _ w0) as [[n|e] w1]; [|discriminate].
    destruct (n =? 0); [discriminate|].
    destruct (client_ttl h _ w1) as [[t|e] w3]; [|discriminate].
    destruct (Z.geb_spec t 0) as [Hge|Hlt]; cbn; [intros [= ->]; lia|].
    destruct (t =? -1); [discriminate|]. destruct (t =? -2); discriminate. }
  destruct cl as [h|]; [apply Hh|].
  rewrite ttl_None.
  destruct (get_client c false None w) as [[[h i]|e] w1]; [apply Hh | discriminate].
Qed.

Lemma ttl_handle_absent (c : client) (k : key) (ver : option Z) (h : nat)
    (w : world) :
  let nkey := key_str (make_key (_backend c) k ver None) in
  next_fault w = None →
  db w h !! nkey = None →
  ttl c k ver (Some h) w
  = (Ok (Some 0),
     set_servers (set_faults (add_log w h (EXISTS nkey)) (tail (faults w)))
       (<[h := db w h]> (servers w))).
Proof.
  intros nkey Hf Hd. unfold ttl, client_or_get, bind, ret, client_exists.
  rewrite send_unfold. fold nkey. rewrite Hf. unfold run_exists. cbn [fst snd].
  rewrite Hd. reflexivity.
Qed.

Lemma get_handle_absent (c : client) (k : key) (d : value) (ver : option Z)
    (h : nat) (w : world) :
  let nkey := key_str (make_key (_backend c) k ver None) in
  next_fault w = None →
  db w h !! nkey = None →
  get c k d ver (Some h) w
  = (Ok d,
     set_servers (set_faults (add_log w h (GET nkey)) (tail (faults w)))
       (<[h := db w h]> (servers w))).
Proof.
  intros nkey Hf Hd. unfold get, client_or_get, bind, ret, except_main, client_get.
  rewrite send_unfold. fold nkey. rewrite Hf. unfold run_get. cbn [fst snd].
  rewrite Hd. reflexivity.
Qed.

(** The fallback of [_incr] on a key that is absent when the TTL is read:
    [ttl] answers 0, [get] answers [None], and [None + delta] raises. *)
Lemma incr_fallback_absent_key (c : client) (k : key) (delta : Z)
    (ver : option Z) (h : nat) (ignore_key_check : bool) (w : world) :
  faults w = [Some ResponseError] →
  db w h !! key_str (make_key (_backend c) k ver None) = None →
  fst (_incr c k delta ver (Some h) ignore_key_check w) = Raise TypeError.
Proof.
  intros Hf Hd. unfold _incr, client_or_get.
  unfold bind at 1. unfold ret at 1.
  unfold except_main, except_ResponseError.
  unfold bind at 1. unfold client_eval. rewrite send_unfold.
  unfold next_fault at 1. rewrite Hf. cbn [tail].
  set (nk := make_key (_backend c) k ver None) in *.
  set (w1 := set_faults (add_log w h (EVAL (negb ignore_key_check) (key_str nk) delta)) []).
  unfold bind at 1.
  assert (Hk : key_str (make_key (_backend c) nk ver None) = key_str nk)
    by (subst nk; rewrite make_key_made; reflexivity).
  rewrite (ttl_handle_absent c nk ver h w1);
    [| reflexivity | rewrite Hk; exact Hd].
  rewrite bool_decide_eq_false_2 by discriminate.
  unfold bind at 1.
  rewrite get_handle_absent; [| reflexivity | ].
  - reflexivity.
  - rewrite Hk, db_insert, decide_True by reflexivity. exact Hd.
Qed.

(** C3: the fallback of [_incr] on a key that is absent when its TTL is
    read.  [ttl] never answers -2, the value [_incr] tests for, so the
    not-found error is not raised there; the fallback goes on to
    [get(key) + delta] and fails on [None + delta].  Evaluated on
    [incr("missing", 2**63, ignore_key_check=True)], where [INCRBY]
    refuses the out-of-range delta, and on a fast path that the
    transport answers with a response error. *)
Theorem incr_fallback_absent_key_is_not_not_found :
  (∀ c k ver cl w, fst (ttl c k ver cl w) ≠ Ok (Some (-2)))
  ∧ (let o := _incr (example_client 1 true) (Plain "missing") (2 ^ 63) None None true
                (fresh_world 1 [] []) in
     fst o = Raise TypeError
     ∧ fst o ≠ Raise (KeyNotFound "p:1:missing")
     ∧ log (snd o) = [(0%nat, EVAL false "p:1:missing" (2 ^ 63));
                      (0%nat, EXISTS "p:1:missing");
                      (0%nat, GET "p:1:missing")])
  ∧ (let o := _incr (example_client 1 true) (Plain "missing") 1 None None false
                (fresh_world 1 [Some ResponseError] []) in
     fst o = Raise TypeError
     ∧ log (snd o) = [(0%nat, EVAL true "p:1:missing" 1);
                      (0%nat, EXISTS "p:1:missing");
                      (0%nat, GET "p:1:missing")]).
Proof.
  split; [exact ttl_never_minus_two|].
  vm_compute. repeat split; try reflexivity. discriminate.
Qed.

Example incr_ex :
  let c := example_client 1 true in
  (fst (_incr c (Plain "missing") 5 None None false (fresh_world 1 [] [])),
   fst (_incr c (Plain "missing") 5 None None true (fresh_world 1 [] [])),
   fst ((_ <- set c (Plain "n") (VInt 41) (Timeout None) None None false false ;;
         _incr c (Plain "n") 1 None None false) (fresh_world 1 [] [])))
  = (Raise (KeyNotFound "p:1:missing"), Ok (VInt 5), Ok (VInt 42)).
Proof. vm_compute. reflexivity. Qed.

(** * Further properties *)

(** ** Decimal text *)














(** ** More on KeyCodec *)

Lemma string_app_assoc (a b c : string) : (a +:+ b) +:+ c = a +:+ (b +:+ c).
Proof.
  induction a as [|ch a IH]; [reflexivity|].
  change (String ch ((a +:+ b) +:+ c) = String ch (a +:+ (b +:+ c))).
  rewrite IH. reflexivity.
Qed.

(** X1: escaping a concatenation is concatenating the escapes: a prefix
    can be escaped apart from what follows it. *)
Theorem glob_escape_app (s1 s2 : string) :
  glob_escape (s1 +:+ s2) = glob_escape s1 +:+ glob_escape s2.
Proof.
  induction s1 as [|ch s1 IH]; [reflexivity|].
  change (String ch s1 +:+ s2) with (String ch (s1 +:+ s2)).
  rewrite !glob_escape_cons, IH, string_app_assoc. reflexivity.
Qed.

Lemma wrap_special_head (ch : ascii) :
  ((ch ∈ special_re) ∧ wrap_special ch = String "[" (String ch (String "]" EmptyString)))
  ∨ ((ch ∉ special_re) ∧ ch ≠ "["%char ∧ wrap_special ch = String ch EmptyString).
Proof.
  unfold wrap_special. rewrite <- special_re_eqb.
  destruct (bool_decide (ch ∈ special_re)) eqn:E.
  - left. apply bool_decide_eq_true in E. split; [exact E | reflexivity].
  - right. apply bool_decide_eq_false in E. split; [exact E|]. split; [|reflexivity].
    intros ->. apply E. unfold special_re. rewrite !elem_of_cons. tauto.
Qed.

(** X2: escaping loses nothing: two strings with the same escape are the
    same string, so two prefixes never meet in one pattern. *)
Theorem glob_escape_injective (s1 s2 : string) :
  glob_escape s1 = glob_escape s2 → s1 = s2.
Proof.
  revert s2. induction s1 as [|c1 s1 IH]; intros [|c2 s2] H.
  - reflexivity.
  - rewrite glob_escape_cons in H.
    destruct (wrap_special_head c2) as [[_ E]|[_ [_ E]]]; rewrite E in H; discriminate.
  - rewrite glob_escape_cons in H.
    destruct (wrap_special_head c1) as [[_ E]|[_ [_ E]]]; rewrite E in H; discriminate.
  - rewrite !glob_escape_cons in H.
    destruct (wrap_special_head c1) as [[_ E1]|[_ [N1 E1]]];
      destruct (wrap_special_head c2) as [[_ E2]|[_ [N2 E2]]];
      rewrite E1, E2 in H;
      change (String ?a ?b +:+ ?r) with (String a (b +:+ r)) in H.
    + injection H as -> H. f_equal. apply IH. exact H.
    + injection H as H _. congruence.
    + injection H as H _. congruence.
    + injection H as -> H. f_equal. apply IH. exact H.
Qed.

Lemma glob_escape_injective_witness :
  glob_escape "a[1]" = "a[[]1]" ∧ String.append "a" "[1]" = "a[1]".
Proof.
  split; [reflexivity|].
  apply (glob_escape_injective (String.append "a" "[1]") "a[1]"). reflexivity.
Defined.

Lemma glob_escape_no_special (s : string) :
  no_special s = true → glob_escape s = s.
Proof.
  induction s as [|ch s IH]; [reflexivity|]. cbn [no_special].
  intros H. apply andb_true_iff in H as [H1 H2]. apply negb_true_iff in H1.
  unfold glob_escape. cbn [re_sub_class]. rewrite H1. f_equal. apply IH. exact H2.
Qed.

Lemma no_special_digits (d : Decimal.uint) :
  no_special (NilEmpty.string_of_uint d) = true.
Proof. induction d; cbn [NilEmpty.string_of_uint no_special]; [reflexivity | exact IHd ..]. Qed.

Lemma no_special_str_of_int (n : Z) : no_special (str_of_int n) = true.
Proof.
  unfold str_of_int, NilZero.string_of_int, NilZero.string_of_uint.
  destruct (Z.to_int n) as [d|d]; destruct d; try reflexivity;
    cbn [no_special]; rewrite ?andb_true_l;
    try (apply (no_special_digits (Decimal.D0 d)));
    try (apply (no_special_digits (Decimal.D1 d)));
    try (apply (no_special_digits (Decimal.D2 d)));
    try (apply (no_special_digits (Decimal.D3 d)));
    try (apply (no_special_digits (Decimal.D4 d)));
    try (apply (no_special_digits (Decimal.D5 d)));
    try (apply (no_special_digits (Decimal.D6 d)));
    try (apply (no_special_digits (Decimal.D7 d)));
    try (apply (no_special_digits (Decimal.D8 d)));
    try (apply (no_special_digits (Decimal.D9 d))).
Qed.

(** X3: a pattern and a key are composed alike when the prefix holds none
    of [*], [?], [[]: the text of an integer version is never changed by
    the escape, so [make_pattern] on a plain string is then [make_key]. *)
Theorem make_pattern_is_make_key (b : backend) (pattern : string)
    (ver : option Z) (prefix : option string) :
  no_special (default (key_prefix b) prefix) = true →
  make_pattern b (Plain pattern) ver prefix = make_key b (Plain pattern) ver prefix.
Proof.
  intros H. unfold make_pattern, make_key.
  replace (match prefix with Some p => p | None => key_prefix b end)
    with (default (key_prefix b) prefix) by (destruct prefix; reflexivity).
  cbn zeta. rewrite (glob_escape_no_special _ H).
  rewrite (glob_escape_no_special _ (no_special_str_of_int _)). reflexivity.
Qed.

Lemma make_pattern_is_make_key_witness :
  make_pattern example_backend (Plain "user:*") (Some 7) None
  = make_key example_backend (Plain "user:*") (Some 7) None.
Proof.
  apply (make_pattern_is_make_key example_backend "user:*" (Some 7) None).
  reflexivity.
Defined.

(** ** One command on a caller's handle *)

(** The milliseconds [set] computes for a timeout. *)
Lemma set_handle (c : client) (k : key) (v : value) (topt : option pynum)
    (ver : option Z) (h : nat) (nx xx : bool) (w : world) :
  let nkey := key_str (make_key (_backend c) k ver None) in
  let px := (λ t, py_int_of_num (times_1000 t)) <$> topt in
  let cmd := SET nkey (encode c v) nx px xx in
  next_fault w = None →
  nx && xx = false →
  (∀ ms, px = Some ms → 0 < ms) →
  set c k v (Timeout topt) ver (Some h) nx xx w
  = (fst (run_set nkey (encode c v) nx px xx (db w h)),
     set_servers (set_faults (add_log w h cmd) (tail (faults w)))
       (<[h := snd (run_set nkey (encode c v) nx px xx (db w h))]> (servers w))).
Proof.
  intros nkey px cmd Hf Hnx Hpx.
  assert (Hrun : ∀ e, fst (run_set nkey (encode c v) nx px xx (db w h)) ≠ Raise (Main e)).
  { intros e. unfold run_set. rewrite Hnx.
    destruct px as [ms|] eqn:E.
    - specialize (Hpx ms eq_refl). destruct (Z.leb_spec ms 0) as [|_]; [lia|].
      repeat case_match; discriminate.
    - repeat case_match; discriminate. }
  assert (Ht : set_try c k ver nx xx (make_key (_backend c) k ver None) (encode c v)
                 {| f_client := Some h; f_index := None; f_timeout := topt;
                    f_tried := [] |} w
               = (fst (run_set nkey (encode c v) nx px xx (db w h)),
                  {| f_client := Some h; f_index := None;
                     f_timeout := num_of_int <$> px; f_tried := [] |},
                  set_servers (set_faults (add_log w h cmd) (tail (faults w)))
                    (<[h := snd (run_set nkey (encode c v) nx px xx (db w h))]>
                       (servers w)))).
  { unfold set_try, set_acquire, set_attempt. cbn [f_client f_timeout f_index f_tried].
    subst px cmd. destruct topt as [t|]; cbn [fmap option_fmap option_map] in *.
    - specialize (Hpx _ eq_refl). destruct (Z.leb_spec (py_int_of_num (times_1000 t)) 0)
        as [|_]; [lia|].
      unfold client_set. rewrite send_unfold, Hf. reflexivity.
    - unfold client_set. rewrite send_unfold, Hf. reflexivity. }
  unfold set. rewrite set_loop_settled; rewrite Ht; [reflexivity | exact Hrun].
Qed.

Lemma get_handle (c : client) (k : key) (d : value) (ver : option Z)
    (h : nat) (w : world) :
  let nkey := key_str (make_key (_backend c) k ver None) in
  next_fault w = None →
  get c k d ver (Some h) w
  = (match db w h !! nkey with
     | None => Ok d
     | Some e => decode c (SBytes (e_value e))
     end,
     set_servers (set_faults (add_log w h (GET nkey)) (tail (faults w)))
       (<[h := db w h]> (servers w))).
Proof.
  intros nkey Hf. unfold get, client_or_get, bind, ret, except_main, client_get, lift.
  rewrite send_unfold. fold nkey. rewrite Hf. unfold run_get. cbn [fst snd].
  destruct (db w h !! nkey); reflexivity.
Qed.

Lemma db_touch (w w1 : world) (h : nat) :
  servers w1 = servers w →
  ∀ i, db (set_servers w1 (<[h := db w h]> (servers w))) i = db w i.
Proof.
  intros Hs i. rewrite db_insert. destruct (decide (h = i)) as [->|]; reflexivity.
Qed.



(** X6: [get] on a key the server does not hold returns the caller's
    default, after one [GET], and changes no key. *)
Theorem get_missing_key (c : client) (k : key) (d : value) (ver : option Z)
    (h : nat) (w : world) :
  let nkey := key_str (make_key (_backend c) k ver None) in
  next_fault w = None →
  db w h !! nkey = None →
  let o := get c k d ver (Some h) w in
  fst o = Ok d
  ∧ log (snd o) = log w ++ [(h, GET nkey)]
  ∧ ∀ i, db (snd o) i = db w i.
Proof.
  intros nkey Hf Hd o. subst o. rewrite get_handle by exact Hf. fold nkey.
  rewrite Hd. cbn [fst snd]. split; [reflexivity|]. split; [reflexivity|].
  apply db_touch. reflexivity.
Qed.

Lemma get_missing_key_witness :
  fst (get (example_client 1 true) (Plain "nope") (VStr "fallback") None (Some 0%nat)
         (fresh_world 1 [] [])) = Ok (VStr "fallback").
Proof.
  apply (get_missing_key (example_client 1 true) (Plain "nope") (VStr "fallback") None
           0%nat (fresh_world 1 [] [])); reflexivity.
Defined.

(** ** ttl *)

Lemma ttl_handle (c : client) (k : key) (ver : option Z) (h : nat) (w : world) :
  let nkey := key_str (make_key (_backend c) k ver None) in
  faults w = [] →
  ttl c k ver (Some h) w
  = match db w h !! nkey with
    | None =>
        (Ok (Some 0),
         set_servers (set_faults (add_log w h (EXISTS nkey)) [])
           (<[h := db w h]> (servers w)))
    | Some e =>
        let t := match e_pttl e with None => -1 | Some ms => (ms + 500) / 1000 end in
        (Ok (if t >=? 0 then Some t
             else if t =? -1 then None
             else if t =? -2 then Some 0 else None),
         set_servers
           (set_faults (add_log (add_log w h (EXISTS nkey)) h (TTL nkey)) [])
           (<[h := db w h]> (<[h := db w h]> (servers w))))
    end.
Proof.
  intros nkey Hf. unfold ttl, client_or_get, bind, ret, client_exists, client_ttl.
  rewrite send_unfold. fold nkey. unfold next_fault at 1. rewrite Hf.
  unfold run_exists. cbn [fst snd tail].
  destruct (db w h !! nkey) as [e|] eqn:E; cbn [bool_decide decide_rel]; [|reflexivity].
  rewrite bool_decide_eq_true_2 by (eexists; reflexivity).
  cbn [Z.eqb]. rewrite send_unfold. unfold next_fault. cbn [faults set_servers set_faults tail].
  unfold run_ttl. cbn [fst snd].
  rewrite db_insert, decide_True by reflexivity. rewrite E.
  cbn [servers set_servers set_faults add_log].
  destruct (_ >=? 0); [reflexivity|]. destruct (_ =? -1); [reflexivity|].
  destruct (_ =? -2); reflexivity.
Qed.

(** X7: the answers of [ttl], on one handle and a transport that does not
    fail: 0 for a key the server does not hold, [None] for a key without
    expiry, and the seconds left (the milliseconds, rounded) otherwise;
    no key is changed. *)
Theorem ttl_answers (c : client) (k : key) (ver : option Z) (h : nat) (w : world) :
  let nkey := key_str (make_key (_backend c) k ver None) in
  faults w = [] →
  (∀ e ms, db w h !! nkey = Some e → e_pttl e = Some ms → 0 <= ms) →
  let o := ttl c k ver (Some h) w in
  fst o = Ok (match db w h !! nkey with
              | None => Some 0
              | Some e => (λ ms, (ms + 500) / 1000) <$> e_pttl e
              end)
  ∧ ∀ i, db (snd o) i = db w i.
Proof.
  intros nkey Hf Hms o. subst o. rewrite ttl_handle by exact Hf. fold nkey.
  destruct (db w h !! nkey) as [e|] eqn:E; cbn [fst snd].
  - split.
    + destruct (e_pttl e) as [ms|] eqn:Ep; cbn [fmap option_fmap option_map].
      * specialize (Hms e ms eq_refl Ep).
        assert (0 <= (ms + 500) / 1000) by (apply Z.div_pos; lia).
        destruct (Z.geb_spec ((ms + 500) / 1000) 0); [reflexivity | lia].
      * reflexivity.
    + intros i. rewrite db_insert. destruct (decide (h = i)) as [->|]; [reflexivity|].
      cbn [servers set_servers set_faults add_log].
      rewrite lookup_insert_ne by assumption. reflexivity.
  - split; [reflexivity|]. apply db_touch. reflexivity.
Qed.

Lemma ttl_answers_witness :
  let c := example_client 1 true in
  let w := snd (set c (Plain "x") (VInt 1) (Timeout (Some (Qmake 5 2))) None (Some 0%nat)
                  false false (fresh_world 1 [] [])) in
  fst (ttl c (Plain "x") None (Some 0%nat) w) = Ok (Some 3)
  ∧ fst (ttl c (Plain "y") None (Some 0%nat) w) = Ok (Some 0).
Proof.
  intros c w. split.
  - refine (proj1 (ttl_answers c (Plain "x") None 0%nat w eq_refl _)).
    intros e ms He Hp. vm_compute in He. injection He as <-. injection Hp as <-. lia.
  - refine (proj1 (ttl_answers c (Plain "y") None 0%nat w eq_refl _)).
    intros e ms He. vm_compute in He. discriminate.
Defined.

(** X8: whatever the server, the transport and the way the handle is
    found, a number [ttl] returns is not negative: the server's -1 and -2
    never reach the caller. *)
Theorem ttl_not_negative (c : client) (k : key) (ver : option Z)
    (cl : option nat) (w : world) (t : Z) :
  fst (ttl c k ver cl w) = Ok (Some t) → 0 <= t.
Proof.
  assert (Hh : ∀ h w0, fst (ttl c k ver (Some h) w0) = Ok (Some t) → 0 <= t).
  { intros h w0. unfold ttl, client_or_get, bind, ret.
    destruct (client_exists h _ w0) as [[n|e] w1]; [|discriminate].
    destruct (n =? 0); [intros [= <-]; lia|].
    destruct (client_ttl h _ w1) as [[t'|e] w3]; [|discriminate].
    destruct (Z.geb_spec t' 0) as [Hge|Hlt]; cbn; [intros [= <-]; lia|].
    destruct (t' =? -1); [discriminate|].
    destruct (t' =? -2); [intros [= <-]; lia | discriminate]. }
  destruct cl as [h|]; [apply Hh|].
  rewrite ttl_None.
  destruct (get_client c false None w) as [[[h i]|e] w1]; [apply Hh | discriminate].
Qed.

Lemma ttl_not_negative_witness :
  let w := snd (set (example_client 1 true) (Plain "x") (VInt 1)
                  (Timeout (Some (Qmake 5 2))) None (Some 0%nat) false false
                  (fresh_world 1 [] [])) in
  fst (ttl (example_client 1 true) (Plain "x") None (Some 0%nat) w) = Ok (Some 3)
  ∧ 0 <= 3.
Proof.
  intros w.
  assert (H : fst (ttl (example_client 1 true) (Plain "x") None (Some 0%nat) w)
              = Ok (Some 3)) by (vm_compute; reflexivity).
  split; [exact H|].
  exact (ttl_not_negative (example_client 1 true) (Plain "x") None (Some 0%nat) w 3 H).
Defined.

(** ** add *)




(** ** What set does to the servers and the transport *)

Lemma client_or_get_outcome (c : client) (write : bool) (cl : option nat)
    (w : world) (e : exn) :
  fst (client_or_get c write cl w) = Raise e → local_error e.
Proof.
  unfold client_or_get, bind, ret. destruct cl as [h|]; [discriminate|].
  pose proof (get_client_frame c write None w) as (_ & _ & _ & He).
  destruct (get_client c write None w) as [[[h i]|e'] w1]; cbn [fst snd] in *;
    [discriminate|].
  intros [= <-]. apply He. reflexivity.
Qed.

Lemma except_main_wraps {A} (m : M A) (h : main_exception → M A) (w : world) :
  (∀ e w' e', fst (h e w') ≠ Raise (Main e')) →
  ∀ e', fst (except_main m h w) ≠ Raise (Main e').
Proof.
  intros Hh e'. unfold except_main.
  destruct (m w) as [[a|e] w1]; [discriminate|].
  destruct e; try discriminate. apply Hh.
Qed.

(** One pass through the [try] of [set]: at most one command, and no key
    changed when it ends in an exception. *)
Lemma set_attempt_effect (c : client) (k : key) (ver : option Z) (nx xx : bool)
    (nkey : key) (nvalue : stored) (h : nat) (f : set_frame) (w : world) :
  let o := set_attempt c k ver nx xx nkey nvalue h f w in
  length (log (snd o)) = S (length (log w))
  ∧ (∀ e, fst (fst o) = Raise e → ∀ i, db (snd o) i = db w i).
Proof.
  assert (Hset : ∀ px,
    let o := client_set h (key_str nkey) nvalue nx px xx w in
    length (log (snd o)) = S (length (log w))
    ∧ (∀ e, fst o = Raise e → ∀ i, db (snd o) i = db w i)).
  { intros px. unfold client_set. rewrite send_unfold.
    destruct (next_fault w); cbn [fst snd].
    - split; [cbn; rewrite length_app; cbn; lia|]. intros _ _ i. reflexivity.
    - split; [cbn; rewrite length_app; cbn; lia|].
      intros e He i. rewrite db_insert. destruct (decide (h = i)) as [->|]; [|reflexivity].
      unfold run_set in *. repeat case_match; cbn in *; try discriminate; reflexivity. }
  unfold set_attempt. destruct (f_timeout f) as [t|].
  - destruct (py_int_of_num (times_1000 t) <=? 0).
    + destruct nx.
      * rewrite has_key_handle. destruct (next_fault w); cbn [fst snd].
        -- split; [cbn; rewrite length_app; cbn; lia|]. intros _ _ i. reflexivity.
        -- split; [cbn; rewrite length_app; cbn; lia|]. discriminate.
      * rewrite delete_handle. destruct (next_fault w); cbn [fst snd].
        -- split; [cbn; rewrite length_app; cbn; lia|]. intros _ _ i. reflexivity.
        -- split; [cbn; rewrite length_app; cbn; lia|]. discriminate.
    + specialize (Hset (Some (py_int_of_num (times_1000 t)))). cbn zeta in Hset.
      destruct (client_set h (key_str nkey) nvalue nx _ xx w) as [r w1]. exact Hset.
  - specialize (Hset None). cbn zeta in Hset.
    destruct (client_set h (key_str nkey) nvalue nx None xx w) as [r w1]. exact Hset.
Qed.

Lemma set_try_effect (c : client) (k : key) (ver : option Z) (nx xx : bool)
    (nkey : key) (nvalue : stored) (f : set_frame) (w : world) :
  let o := set_try c k ver nx xx nkey nvalue f w in
  (length (log (snd o)) <= S (length (log w)))%nat
  ∧ (∀ e, fst (fst o) = Raise e → ∀ i, db (snd o) i = db w i).
Proof.
  unfold set_try, set_acquire. destruct (f_client f) as [h|].
  - pose proof (set_attempt_effect c k ver nx xx nkey nvalue h f w) as [H1 H2].
    cbn zeta in *. split; [lia | exact H2].
  - pose proof (get_client_frame c true (Some (f_tried f)) w) as (Hl & _ & Hs & _).
    destruct (get_client c true (Some (f_tried f)) w) as [[[h i]|e] w1];
      cbn [fst snd] in *.
    + pose proof (set_attempt_effect c k ver nx xx nkey nvalue h
                    {| f_client := Some h; f_index := Some i;
                       f_timeout := f_timeout f; f_tried := f_tried f |} w1) as [H1 H2].
      cbn zeta in *. rewrite Hl in H1. split; [lia|].
      intros e He j. rewrite (H2 e He j). apply db_frame. exact Hs.
    + rewrite Hl. split; [lia|]. intros _ _ j. apply db_frame. exact Hs.
Qed.

Lemma set_loop_effect (c : client) (k : key) (ver : option Z)
    (oc : option nat) (nx xx : bool) (nkey : key) (nvalue : stored) (budget : nat) :
  ∀ (f : set_frame) (w : world),
    let o := set_loop budget c k ver oc nx xx nkey nvalue f w in
    (∀ e, fst o ≠ Raise (Main e))
    ∧ (∀ e, fst o = Raise e → ∀ i, db (snd o) i = db w i)
    ∧ (length (log (snd o)) <= length (log w) + budget)%nat
    ∧ (is_Some oc ∨ _replica_read_only c = true →
         (length (log (snd o)) <= S (length (log w)))%nat).
Proof.
  induction budget as [|b IH]; intros f w; cbn zeta.
  - cbn. repeat split; try discriminate; try lia; intros; reflexivity.
  - cbn [set_loop].
    pose proof (set_try_effect c k ver nx xx nkey nvalue f w) as [Hlen Hdb].
    destruct (set_try c k ver nx xx nkey nvalue f w) as [[r f'] w']. cbn [fst snd] in *.
    assert (Hstop : ∀ r' : result bool, (∀ e, r' ≠ Raise (Main e)) →
      (∀ e, r' = Raise e → ∀ i, db w' i = db w i) →
      (∀ e, fst (r', w') ≠ Raise (Main e))
      ∧ (∀ e, fst (r', w') = Raise e → ∀ i, db (snd (r', w')) i = db w i)
      ∧ (length (log (snd (r', w'))) <= length (log w) + S b)%nat
      ∧ (is_Some oc ∨ _replica_read_only c = true →
           (length (log (snd (r', w'))) <= S (length (log w)))%nat)).
    { intros r' H1 H2. cbn [fst snd]. repeat split; try assumption; try lia. }
    destruct r as [a|e]; [apply Hstop; [discriminate | discriminate]|].
    destruct e;
      try (apply Hstop; [discriminate | intros e' _; apply (Hdb _ eq_refl)]).
    destruct (bool_decide (oc = None) && negb (_replica_read_only c)
              && (length (f_tried f') <? length (_server c))%nat) eqn:Hc.
    + apply andb_true_iff in Hc as [Hc _]. apply andb_true_iff in Hc as [Hoc Hro].
      apply bool_decide_eq_true in Hoc. apply negb_true_iff in Hro.
      destruct (f_index f') as [index|].
      * specialize (IH {| f_client := None; f_index := Some index;
                          f_timeout := f_timeout f'; f_tried := f_tried f' ++ [index] |} w').
        cbn zeta in IH. destruct IH as (I1 & I2 & I3 & _).
        split; [exact I1|]. split; [|split].
        -- intros e' He i. rewrite (I2 e' He i). apply (Hdb _ eq_refl).
        -- lia.
        -- intros [[? Hs]|Hr]; [subst oc; discriminate | congruence].
      * apply Hstop; [discriminate | intros e' _; apply (Hdb _ eq_refl)].
    + apply Hstop; [discriminate | intros e' _; apply (Hdb _ eq_refl)].
Qed.



(** X11: [set] sends at most one command more than there are servers,
    and at most one when the caller gave the handle or the replicas are
    read-only (the default): then it never retries. *)
Theorem set_sends_few_commands (c : client) (k : key) (v : value)
    (timeout : timeout_arg) (ver : option Z) (cl : option nat) (nx xx : bool)
    (w : world) :
  let w' := snd (set c k v timeout ver cl nx xx w) in
  (length (log w') <= length (log w) + S (length (_server c)))%nat
  ∧ (is_Some cl ∨ _replica_read_only c = true →
       (length (log w') <= S (length (log w)))%nat).
Proof.
  unfold set.
  pose proof (set_loop_effect c k ver cl nx xx (make_key (_backend c) k ver None)
                (encode c v) (S (length (_server c)))
                {| f_client := cl; f_index := None;
                   f_timeout := match timeout with
                                | DEFAULT_TIMEOUT => default_timeout (_backend c)
                                | Timeout t => t
                                end;
                   f_tried := [] |} w) as (_ & _ & H3 & H4).
  split; [exact H3 | exact H4].
Qed.

Lemma set_sends_few_commands_witness :
  let c := example_client 3 true in
  let w := fresh_world 3 [Some ConnectionError] [] in
  (length (log (snd (set c (Plain "x") (VInt 1) DEFAULT_TIMEOUT None None false false w)))
   <= S (length (log w)))%nat.
Proof.
  intros c w.
  apply (set_sends_few_commands c (Plain "x") (VInt 1) DEFAULT_TIMEOUT None None
           false false w).
  right. reflexivity.
Defined.

(** X12: [set], [delete], [has_key] and [_incr] never let one of
    [_main_exceptions] through: a transport failure reaches the caller
    as [ConnectionInterrupted], or not at all. *)
Theorem transport_errors_are_wrapped (c : client) (k : key) (v : value)
    (timeout : timeout_arg) (ver : option Z) (prefix : option string)
    (cl : option nat) (nx xx : bool) (delta : Z) (ignore_key_check : bool)
    (w : world) (e : main_exception) :
  fst (set c k v timeout ver cl nx xx w) ≠ Raise (Main e)
  ∧ fst (delete c k ver prefix cl w) ≠ Raise (Main e)
  ∧ fst (has_key c k ver cl w) ≠ Raise (Main e)
  ∧ fst (_incr c k delta ver cl ignore_key_check w) ≠ Raise (Main e).
Proof.
  split; [|split; [|split]].
  - unfold set. apply (set_loop_effect c k ver cl nx xx _ _ (S (length (_server c)))).
  - pose proof (delete_effect c k ver prefix cl w) as H. cbn zeta in H.
    destruct (fst (delete c k ver prefix cl w)) as [n|e']; [discriminate|].
    destruct H as (_ & _ & H & _). intros [= ->]. eapply H. reflexivity.
  - unfold has_key, bind.
    pose proof (client_or_get_outcome c false cl w) as Hc.
    destruct (client_or_get c false cl w) as [[h|e'] w1]; cbn [fst] in *.
    + apply except_main_wraps. intros; discriminate.
    + intros [= ->]. destruct (Hc _ eq_refl); discriminate.
  - unfold _incr, bind at 1.
    pose proof (client_or_get_outcome c true cl w) as Hc.
    destruct (client_or_get c true cl w) as [[h|e'] w1]; cbn [fst] in *.
    + apply except_main_wraps. intros; discriminate.
    + intros [= ->]. destruct (Hc _ eq_refl); discriminate.
Qed.

(** ** delete_many *)

Lemma run_del_keys_spec (ks : list string) :
  ∀ d : gmap string entry,
    let o := run_del_keys ks d in
    (∀ k, snd o !! k = if bool_decide (k ∈ ks) then None else d !! k)
    ∧ Z.of_nat (size (snd o)) = Z.of_nat (size d) - fst o
    ∧ 0 <= fst o <= Z.of_nat (length ks).
Proof.
  induction ks as [|k0 ks IH]; intros d; cbn zeta.
  - cbn. split; [reflexivity | lia].
  - cbn [run_del_keys]. specialize (IH (base.delete k0 d)). cbn zeta in IH.
    destruct (run_del_keys ks (base.delete k0 d)) as [m d'] eqn:E. cbn [fst snd] in *.
    destruct IH as (Hl & Hs & Hm). split; [|split].
    + intros k. rewrite Hl.
      destruct (decide (k ∈ ks)) as [Hin|Hin].
      * rewrite !bool_decide_eq_true_2; [reflexivity | | assumption].
        apply elem_of_cons. right. assumption.
      * rewrite (bool_decide_eq_false_2 (k ∈ ks)) by assumption.
        destruct (decide (k = k0)) as [->|Hne].
        -- rewrite bool_decide_eq_true_2 by (apply elem_of_cons; left; reflexivity).
           apply lookup_delete_eq.
        -- rewrite bool_decide_eq_false_2
             by (rewrite elem_of_cons; intros [|]; contradiction).
           apply lookup_delete_ne. congruence.
    + rewrite Hs, map_size_delete.
      destruct (d !! k0) as [e|] eqn:Ek.
      * rewrite bool_decide_eq_true_2 by (eexists; reflexivity).
        assert (size d ≠ 0%nat).
        { intros Hz. apply map_size_empty_inv in Hz. subst d.
          rewrite lookup_empty in Ek. discriminate. }
        lia.
      * rewrite bool_decide_eq_false_2 by (intros [? [=]]). cbn [id]. lia.
    + destruct (bool_decide (is_Some (d !! k0))); cbn [length]; lia.
Qed.

(** X13: [delete_many] on no keys sends no command and returns nothing,
    on a caller's handle or on a client as [__init__] leaves it; it
    cannot raise a connection-interrupted error. *)
Theorem delete_many_no_keys (c : client) (ver : option Z) (cl : option nat)
    (w : world) :
  let r := fst (delete_many c [] ver cl w) in
  let w' := snd (delete_many c [] ver cl w) in
  log w' = log w ∧ servers w' = servers w
  ∧ (∀ conn e, r ≠ Raise (ConnectionInterrupted conn e))
  ∧ (is_Some cl ∨ client_invariant c w → r = Ok None).
Proof.
  unfold delete_many, client_or_get, bind. destruct cl as [h|]; cbn zeta.
  - cbn. repeat split; try reflexivity. discriminate.
  - pose proof (get_client_frame c true None w) as (Hl & Hf & Hs & He).
    pose proof (client_invariant_get_client c true None w) as Hinv.
    destruct (get_client c true None w) as [[[h i]|e] w1]; cbn [fst snd ret map] in *.
    + repeat split; try assumption. discriminate.
    + repeat split; try assumption.
      * intros conn e' [= ->]. destruct (He _ eq_refl); discriminate.
      * intros [[? [=]] | Hi]. destruct (Hinv Hi) as (? & ? & ? & [=] & _).
Qed.

Lemma delete_many_no_keys_witness :
  fst (delete_many (example_client 2 true) [] None None
         (fresh_world 2 [Some TimeoutError] [])) = Ok None.
Proof.
  apply (delete_many_no_keys (example_client 2 true) None None
           (fresh_world 2 [Some TimeoutError] [])).
  right. split; [reflexivity | cbn; lia].
Defined.

(** X14: [delete_many] on some keys sends one [DEL] with all of them;
    afterwards none of them is held, every other key is as before, and
    the count returned is the number of keys the server lost. *)
Theorem delete_many_removes (c : client) (keys : list key) (ver : option Z)
    (h : nat) (w : world) :
  let nkeys := map (λ k, key_str (make_key (_backend c) k ver None)) keys in
  keys ≠ [] →
  next_fault w = None →
  let o := delete_many c keys ver (Some h) w in
  ∃ n, fst o = Ok (Some n)
    ∧ log (snd o) = log w ++ [(h, DEL nkeys)]
    ∧ (∀ k, db (snd o) h !! k = if bool_decide (k ∈ nkeys) then None else db w h !! k)
    ∧ (∀ i, i ≠ h → db (snd o) i = db w i)
    ∧ n = Z.of_nat (size (db w h)) - Z.of_nat (size (db (snd o) h)).
Proof.
  intros nkeys Hne Hf o.
  pose proof (run_del_keys_spec nkeys (db w h)) as (Hl & Hs & _).
  assert (Ho : o = (Ok (Some (fst (run_del_keys nkeys (db w h)))),
                    set_servers (set_faults (add_log w h (DEL nkeys)) (tail (faults w)))
                      (<[h := snd (run_del_keys nkeys (db w h))]> (servers w)))).
  { subst o. unfold delete_many, client_or_get, bind, ret.
    destruct keys as [|k0 keys]; [contradiction|].
    cbn [map]. unfold except_main, client_delete.
    change (key_str (make_key (_backend c) k0 ver None)
            :: map key_str (map (λ k, make_key (_backend c) k ver None) keys))
      with (map key_str (map (λ k, make_key (_backend c) k ver None) (k0 :: keys))).
    rewrite map_map. fold nkeys.
    rewrite send_unfold, Hf. unfold run_del.
    destruct (run_del_keys nkeys (db w h)) as [n d']. reflexivity. }
  rewrite Ho. cbn [fst snd].
  exists (fst (run_del_keys nkeys (db w h))).
  split; [reflexivity|]. split; [reflexivity|]. split; [|split].
  - intros k. rewrite db_insert, decide_True by reflexivity. apply Hl.
  - intros i Hi. rewrite db_insert, decide_False by congruence. reflexivity.
  - rewrite db_insert, decide_True by reflexivity. lia.
Qed.

Lemma delete_many_removes_witness :
  let c := example_client 1 true in
  let w := snd (set c (Plain "a") (VInt 1) (Timeout None) None (Some 0%nat)
                  false false (fresh_world 1 [] [])) in
  ∃ n, fst (delete_many c [Plain "a"; Plain "b"; Plain "a"] None (Some 0%nat) w)
       = Ok (Some n)
    ∧ n = Z.of_nat (size (db w 0%nat))
          - Z.of_nat (size (db (snd (delete_many c [Plain "a"; Plain "b"; Plain "a"]
                                       None (Some 0%nat) w)) 0%nat)).
Proof.
  intros c w.
  destruct (delete_many_removes c [Plain "a"; Plain "b"; Plain "a"] None 0%nat w)
    as (n & H1 & _ & _ & _ & H5); [discriminate | reflexivity |].
  exists n. split; assumption.
Defined.

(** ** The fast path of _incr *)






(** ** incr_version *)

(** The steps of [incr_version] on one handle and a quiet transport, each
    up to the world it leaves. *)
Lemma get_quiet (c : client) (k : key) (d : value) (ver : option Z) (h : nat)
    (w : world) :
  faults w = [] →
  ∃ w1, get c k d ver (Some h) w
        = (match db w h !! key_str (make_key (_backend c) k ver None) with
           | None => Ok d
           | Some e => decode c (SBytes (e_value e))
           end, w1)
    ∧ faults w1 = [] ∧ ∀ i, db w1 i = db w i.
Proof.
  intros Hf. eexists. split; [|split].
  - apply get_handle. unfold next_fault. rewrite Hf. reflexivity.
  - cbn. rewrite Hf. reflexivity.
  - apply db_touch. reflexivity.
Qed.

Lemma ttl_quiet (c : client) (k : key) (ver : option Z) (h : nat) (w : world) :
  faults w = [] →
  ∃ w1, ttl c k ver (Some h) w
        = (Ok match db w h !! key_str (make_key (_backend c) k ver None) with
              | None => Some 0
              | Some e =>
                  let t := match e_pttl e with
                           | None => -1
                           | Some ms => (ms + 500) / 1000
                           end in
                  if t >=? 0 then Some t
                  else if t =? -1 then None
                  else if t =? -2 then Some 0 else None
              end, w1)
    ∧ faults w1 = [] ∧ ∀ i, db w1 i = db w i.
Proof.
  intros Hf. rewrite ttl_handle by exact Hf.
  destruct (db w h !! key_str (make_key (_backend c) k ver None)) as [e|].
  - eexists. split; [reflexivity|]. split; [reflexivity|].
    intros i. rewrite db_insert. destruct (decide (h = i)) as [->|]; [reflexivity|].
    cbn [servers set_servers set_faults add_log].
    rewrite lookup_insert_ne by assumption. reflexivity.
  - eexists. split; [reflexivity|]. split; [reflexivity|].
    apply db_touch. reflexivity.
Qed.

Lemma set_quiet (c : client) (k : key) (v : value) (topt : option pynum)
    (ver : option Z) (h : nat) (w : world) :
  let nkey := key_str (make_key (_backend c) k ver None) in
  let px := (λ t, py_int_of_num (times_1000 t)) <$> topt in
  faults w = [] →
  ∃ b w1, set c k v (Timeout topt) ver (Some h) false false w = (Ok b, w1)
    ∧ faults w1 = []
    ∧ db w1 h = (if not_positive px then base.delete nkey (db w h)
                 else <[nkey := {| e_value := stored_bytes (encode c v);
                                   e_pttl := px |}]> (db w h))
    ∧ ∀ i, i ≠ h → db w1 i = db w i.
Proof.
  intros nkey px Hf.
  assert (Hnf : next_fault w = None) by (unfold next_fault; rewrite Hf; reflexivity).
  destruct (not_positive px) eqn:Hnp.
  - subst px. destruct topt as [t|]; [|discriminate].
    cbn [fmap option_fmap option_map not_positive] in Hnp. apply Z.leb_le in Hnp.
    rewrite (set_nonpositive_timeout_delete c k v t ver (Some h) false w Hnp).
    rewrite delete_handle, Hnf. fold nkey. cbn [fst snd bool_of_count].
    eexists _, _. split; [reflexivity|]. split; [|split].
    + cbn. rewrite Hf. reflexivity.
    + rewrite db_insert, decide_True by reflexivity. reflexivity.
    + intros i Hi. rewrite db_insert, decide_False by congruence. reflexivity.
  - rewrite set_handle; [| exact Hnf | reflexivity |].
    + fold nkey px. unfold run_set. cbn [andb].
      change (match px with Some ms => ms <=? 0 | None => false end)
        with (not_positive px). rewrite Hnp. cbn [fst snd].
      eexists _, _. split; [reflexivity|]. split; [|split].
      * cbn. rewrite Hf. reflexivity.
      * rewrite db_insert, decide_True by reflexivity. reflexivity.
      * intros i Hi. rewrite db_insert, decide_False by congruence. reflexivity.
    + fold px. intros ms E. rewrite E in Hnp. cbn [not_positive] in Hnp.
      apply Z.leb_gt in Hnp. exact Hnp.
Qed.

Lemma delete_quiet (c : client) (k : key) (ver : option Z)
    (prefix : option string) (h : nat) (w : world) :
  let nkey := key_str (make_key (_backend c) k ver prefix) in
  faults w = [] →
  ∃ n w1, delete c k ver prefix (Some h) w = (Ok n, w1)
    ∧ faults w1 = []
    ∧ db w1 h = base.delete nkey (db w h)
    ∧ ∀ i, i ≠ h → db w1 i = db w i.
Proof.
  intros nkey Hf. rewrite delete_handle. fold nkey.
  unfold next_fault. rewrite Hf.
  eexists _, _. split; [reflexivity|]. split; [|split].
  - reflexivity.
  - rewrite db_insert, decide_True by reflexivity. reflexivity.
  - intros i Hi. rewrite db_insert, decide_False by congruence. reflexivity.
Qed.

(** The seconds [ttl] reports for an entry, as [incr_version] hands them
    back to [set]: in milliseconds again. *)
Lemma px_of_seconds (t : option Z) :
  (λ x, py_int_of_num (times_1000 x)) <$> (num_of_int <$> t) = (λ s, s * 1000) <$> t.
Proof.
  destruct t as [s|]; [|reflexivity]. cbn.
  unfold py_int_of_num, times_1000, num_of_int. cbn [Qnum Qden].
  rewrite Z.quot_1_r. reflexivity.
Qed.

Lemma incr_version_quiet (c : client) (original_key : string → result string)
    (s : string) (delta : Z) (ver : option Z) (h : nat) (w : world) :
  let ver0 := default (version (_backend c)) ver in
  let old_s := key_str (make_key (_backend c) (Plain s) (Some ver0) None) in
  let new_s := key_str (make_key (_backend c) (Plain s) (Some (ver0 + delta)) None) in
  faults w = [] →
  match db w h !! old_s with
  | None =>
      ∃ w', incr_version c original_key (Plain s) delta ver (Some h) w
            = (Raise (KeyNotFound s), w')
        ∧ ∀ i, db w' i = db w i
  | Some e =>
      ∀ v, decode c (SBytes (e_value e)) = Ok v → v ≠ VNone →
        let t := match e_pttl e with None => -1 | Some ms => (ms + 500) / 1000 end in
        let secs := if t >=? 0 then Some t
                    else if t =? -1 then None
                    else if t =? -2 then Some 0 else None in
        let px := (λ x, x * 1000) <$> secs in
        ∃ w', incr_version c original_key (Plain s) delta ver (Some h) w
              = (Ok (ver0 + delta), w')
          ∧ db w' h
            = base.delete old_s
                (if not_positive px then base.delete new_s (db w h)
                 else <[new_s := {| e_value := stored_bytes (encode c v);
                                    e_pttl := px |}]> (db w h))
          ∧ ∀ i, i ≠ h → db w' i = db w i
  end.
Proof.
  intros ver0 old_s new_s Hf.
  set (old := make_key (_backend c) (Plain s) (Some ver0) None).
  set (new := make_key (_backend c) (Plain s) (Some (ver0 + delta)) None).
  destruct (get_quiet c old VNone (Some ver0) h w Hf) as (w1 & Hg & Hf1 & Hd1).
  destruct (ttl_quiet c old (Some ver0) h w1 Hf1) as (w2 & Ht & Hf2 & Hd2).
  subst old. rewrite make_key_made in Hg, Ht. rewrite Hd1 in Ht.
  fold old_s in Hg, Ht.
  set (old := make_key (_backend c) (Plain s) (Some ver0) None) in *.
  assert (Hver : match ver with Some v => v | None => version (_backend c) end = ver0)
    by (subst ver0; destruct ver; reflexivity).
  destruct (db w h !! old_s) as [e|] eqn:Hold.
  - intros v Hdec Hv t secs px. rewrite Hdec in Hg. fold t in Ht. fold secs in Ht.
    destruct (set_quiet c new v (num_of_int <$> secs) None h w2 Hf2)
      as (b & w3 & Hs & Hf3 & Hd3 & Ho3).
    rewrite px_of_seconds in Hd3. fold px in Hd3.
    destruct (delete_quiet c old None None h w3 Hf3) as (n & w4 & Hdl & _ & Hd4 & Ho4).
    subst old new. rewrite make_key_made in Hd3, Hd4.
    fold old_s in Hd4. fold new_s in Hd3.
    set (old := make_key (_backend c) (Plain s) (Some ver0) None) in *.
    set (new := make_key (_backend c) (Plain s) (Some (ver0 + delta)) None) in *.
    exists w4. split; [|split].
    + unfold incr_version, client_or_get, bind, ret, except_main. rewrite Hver.
      fold old. rewrite Hg, Ht. fold new. cbn zeta. fold secs.
      destruct v; [contradiction | ..]; rewrite Hs, Hdl; reflexivity.
    + rewrite Hd4, Hd3, Hd2, Hd1. reflexivity.
    + intros i Hi. rewrite Ho4, Ho3, Hd2, Hd1 by assumption. reflexivity.
  - exists w2. split.
    + unfold incr_version, client_or_get, bind, ret, except_main. rewrite Hver.
      fold old. rewrite Hg, Ht. reflexivity.
    + intros i. rewrite Hd2, Hd1. reflexivity.
Qed.

(** X17: [incr_version] on a key the server does not hold under the
    current version raises the not-found error, naming the key as the
    caller wrote it, and changes no key. *)
Theorem incr_version_missing_key (c : client)
    (original_key : string → result string) (s : string) (delta : Z)
    (ver : option Z) (h : nat) (w : world) :
  let ver0 := default (version (_backend c)) ver in
  let old_s := key_str (make_key (_backend c) (Plain s) (Some ver0) None) in
  faults w = [] →
  db w h !! old_s = None →
  let o := incr_version c original_key (Plain s) delta ver (Some h) w in
  fst o = Raise (KeyNotFound s) ∧ ∀ i, db (snd o) i = db w i.
Proof.
  intros ver0 old_s Hf Hd o. subst o.
  pose proof (incr_version_quiet c original_key s delta ver h w Hf) as H.
  cbn zeta in H. fold ver0 old_s in H. rewrite Hd in H.
  destruct H as (w' & -> & Hdb). split; [reflexivity | exact Hdb].
Qed.

Lemma incr_version_missing_key_witness :
  fst (incr_version (example_client 1 true) (λ s, Ok s) (Plain "k") 1 None (Some 0%nat)
         (fresh_world 1 [] [])) = Raise (KeyNotFound "k").
Proof.
  apply (incr_version_missing_key (example_client 1 true) (λ s, Ok s) "k" 1 None 0%nat
           (fresh_world 1 [] []) eq_refl eq_refl).
Defined.

(** X18: [incr_version] moves a value to the next version.  For a key
    that holds a value other than [None], with no expiry or at least
    half a second left, and whose name under the new version differs:
    it returns the new version, the old name is gone, the new name holds
    the value encoded again, with the expiry rounded to whole seconds,
    and no other key changes. *)
Theorem incr_version_moves_value (c : client)
    (original_key : string → result string) (s : string) (delta : Z)
    (ver : option Z) (h : nat) (w : world) (e : entry) (v : value) :
  let ver0 := default (version (_backend c)) ver in
  let old_s := key_str (make_key (_backend c) (Plain s) (Some ver0) None) in
  let new_s := key_str (make_key (_backend c) (Plain s) (Some (ver0 + delta)) None) in
  faults w = [] →
  db w h !! old_s = Some e →
  decode c (SBytes (e_value e)) = Ok v →
  v ≠ VNone →
  new_s ≠ old_s →
  (∀ ms, e_pttl e = Some ms → 500 <= ms) →
  let o := incr_version c original_key (Plain s) delta ver (Some h) w in
  fst o = Ok (ver0 + delta)
  ∧ db (snd o) h !! old_s = None
  ∧ db (snd o) h !! new_s
    = Some {| e_value := stored_bytes (encode c v);
              e_pttl := (λ ms, (ms + 500) / 1000 * 1000) <$> e_pttl e |}
  ∧ (∀ k', k' ≠ old_s → k' ≠ new_s → db (snd o) h !! k' = db w h !! k')
  ∧ (∀ i, i ≠ h → db (snd o) i = db w i).
Proof.
  intros ver0 old_s new_s Hf Hd Hdec Hv Hne Hms o. subst o.
  pose proof (incr_version_quiet c original_key s delta ver h w Hf) as H.
  cbn zeta in H. fold ver0 old_s new_s in H. rewrite Hd in H.
  destruct (H v Hdec Hv) as (w' & -> & Hdb & Ho). clear H. cbn [fst snd].
  assert (Hpx : (λ x, x * 1000) <$>
                  (let t := match e_pttl e with
                            | Some ms => (ms + 500) / 1000 | None => -1 end in
                   if t >=? 0 then Some t
                   else if t =? -1 then None else if t =? -2 then Some 0 else None)
                = (λ ms, (ms + 500) / 1000 * 1000) <$> e_pttl e
                ∧ not_positive ((λ ms, (ms + 500) / 1000 * 1000) <$> e_pttl e) = false).
  { destruct (e_pttl e) as [ms|]; [|split; reflexivity].
    specialize (Hms ms eq_refl). cbn zeta.
    assert (1 <= (ms + 500) / 1000) by (apply Z.div_le_lower_bound; lia).
    destruct (Z.geb_spec ((ms + 500) / 1000) 0); [|lia].
    split; [reflexivity|]. cbn. apply Z.leb_gt. lia. }
  destruct Hpx as [Hpx Hnp]. cbn zeta in Hpx. rewrite Hpx, Hnp in Hdb.
  split; [reflexivity|]. split; [|split; [|split]].
  - rewrite Hdb. apply lookup_delete_eq.
  - rewrite Hdb, lookup_delete_ne by congruence. apply lookup_insert_eq.
  - intros k' H1 H2. rewrite Hdb, lookup_delete_ne by congruence.
    apply lookup_insert_ne. congruence.
  - exact Ho.
Qed.

Lemma incr_version_moves_value_witness :
  let c := example_client 1 true in
  let w := snd (set c (Plain "k") (VStr "v") (Timeout (Some (num_of_int 2))) None
                  (Some 0%nat) false false (fresh_world 1 [] [])) in
  let o := incr_version c (λ s, Ok s) (Plain "k") 1 None (Some 0%nat) w in
  fst o = Ok (1 + 1)
  ∧ db (snd o) 0%nat !! "p:1:k" = None
  ∧ db (snd o) 0%nat !! "p:2:k"
    = Some {| e_value := b_ "Sv"; e_pttl := Some 2000 |}.
Proof.
  intros c w o.
  destruct (incr_version_moves_value c (λ s, Ok s) "k" 1 None 0%nat w
              {| e_value := b_ "Sv"; e_pttl := Some 2000 |} (VStr "v"))
    as (H1 & H2 & H3 & _).
  - reflexivity.
  - vm_compute. reflexivity.
  - vm_compute. reflexivity.
  - discriminate.
  - vm_compute. discriminate.
  - intros ms [= <-]. lia.
  - split; [exact H1|]. split; [exact H2 | exact H3].
Defined.

(** X19: [incr_version] can lose the value.  When the key has less than
    half a second left, [ttl] reports 0 seconds and [set] takes that for
    "delete"; and when the new version's name is the old one (a delta of
    0), the [delete] that follows removes what [set] wrote.  Either way
    the new version is returned and neither name holds a value. *)
Theorem incr_version_loses_value (c : client)
    (original_key : string → result string) (s : string) (delta : Z)
    (ver : option Z) (h : nat) (w : world) (e : entry) (v : value) :
  let ver0 := default (version (_backend c)) ver in
  let old_s := key_str (make_key (_backend c) (Plain s) (Some ver0) None) in
  let new_s := key_str (make_key (_backend c) (Plain s) (Some (ver0 + delta)) None) in
  faults w = [] →
  db w h !! old_s = Some e →
  decode c (SBytes (e_value e)) = Ok v →
  v ≠ VNone →
  new_s = old_s ∨ (∃ ms, e_pttl e = Some ms ∧ 0 <= ms < 500) →
  let o := incr_version c original_key (Plain s) delta ver (Some h) w in
  fst o = Ok (ver0 + delta)
  ∧ db (snd o) h !! old_s = None
  ∧ db (snd o) h !! new_s = None.
Proof.
  intros ver0 old_s new_s Hf Hd Hdec Hv Hcase o. subst o.
  pose proof (incr_version_quiet c original_key s delta ver h w Hf) as H.
  cbn zeta in H. fold ver0 old_s new_s in H. rewrite Hd in H.
  destruct (H v Hdec Hv) as (w' & -> & Hdb & Ho). clear H. cbn [fst snd].
  split; [reflexivity|]. split; [rewrite Hdb; apply lookup_delete_eq|].
  destruct Hcase as [Heq | (ms & Hp & Hms)].
  - rewrite Heq, Hdb. apply lookup_delete_eq.
  - rewrite Hp in Hdb.
    assert (Hz : (ms + 500) / 1000 = 0) by (apply Z.div_small; lia).
    rewrite Hz in Hdb.
    match type of Hdb with
    | context [not_positive ?a] => change (not_positive a) with true in Hdb
    end.
    cbn iota in Hdb. rewrite Hdb.
    destruct (decide (new_s = old_s)) as [->|Hne]; [apply lookup_delete_eq|].
    rewrite lookup_delete_ne by congruence. apply lookup_delete_eq.
Qed.

Lemma incr_version_loses_value_witness :
  let c := example_client 1 true in
  let w := snd (set c (Plain "k") (VStr "v") (Timeout (Some (Qmake 2 5))) None
                  (Some 0%nat) false false (fresh_world 1 [] [])) in
  let o := incr_version c (λ s, Ok s) (Plain "k") 1 None (Some 0%nat) w in
  db w 0%nat !! "p:1:k" = Some {| e_value := b_ "Sv"; e_pttl := Some 400 |}
  ∧ fst o = Ok (1 + 1)
  ∧ db (snd o) 0%nat !! "p:1:k" = None
  ∧ db (snd o) 0%nat !! "p:2:k" = None.
Proof.
  intros c w o.
  assert (Hw : db w 0%nat !! "p:1:k" = Some {| e_value := b_ "Sv"; e_pttl := Some 400 |})
    by (vm_compute; reflexivity).
  split; [exact Hw|].
  apply (incr_version_loses_value c (λ s, Ok s) "k" 1 None 0%nat w
           {| e_value := b_ "Sv"; e_pttl := Some 400 |} (VStr "v")).
  - reflexivity.
  - exact Hw.
  - vm_compute. reflexivity.
  - discriminate.
  - right. exists 400. split; [reflexivity | lia].
Defined.

(** ** ConnectionRegistry *)

Lemma get_client_spec (c : client) (write : bool) (tried : option (list nat))
    (w : world) :
  let n := length (_server c) in
  let already := default [] tried in
  client_invariant c w →
  ∃ h i w', get_client c write tried w = (Ok (h, i), w')
    ∧ (i < n)%nat
    ∧ (if bool_decide (already = []) || negb (length already <? n)%nat
       then if write || (n =? 1)%nat then i = 0%nat else (1 <= i <= n - 1)%nat
       else i ∉ already)
    ∧ h = match _clients w !! i with Some (Some h0) => h0 | _ => i end
    ∧ _clients w' = <[i := Some h]> (_clients w)
    ∧ log w' = log w ∧ faults w' = faults w ∧ servers w' = servers w.
Proof.
  intros n already [Hlen Hn].
  destruct (get_next_client_index_cases c write tried w Hn)
    as (i & w1 & Hr & Hi & Hsel & Hl & Hf & Hs & Hc).
  unfold get_client, bind. rewrite Hr. unfold clients_get.
  destruct (lookup_lt_is_Some_2 (_clients w1) i) as [slot Hslot];
    [rewrite Hc, Hlen; assumption|].
  rewrite Hslot. rewrite Hc in Hslot. destruct slot as [h|].
  - exists h, i, w1. unfold ret. rewrite Hslot.
    repeat split; try assumption.
    rewrite Hc. symmetry. apply list_insert_id. exact Hslot.
  - unfold connect.
    destruct (lookup_lt_is_Some_2 (_server c) i Hi) as [url Hurl]. rewrite Hurl.
    unfold ret, clients_put.
    destruct (Nat.ltb_spec i (length (_clients w1))) as [_|Hge];
      [|rewrite Hc, Hlen in Hge; lia].
    eexists i, i, _. rewrite Hslot. repeat split; try assumption.
    cbn [_clients set_clients]. rewrite Hc. reflexivity.
Qed.

(** X20: on a client as [__init__] leaves it, [get_client] returns a
    handle for the index selection gives: the one its slot already
    holds, else a new one that it keeps in the slot; no other slot
    changes and nothing is sent. *)
Theorem get_client_fills_one_slot (c : client) (write : bool)
    (tried : option (list nat)) (w : world) :
  client_invariant c w →
  ∃ h i w', get_client c write tried w = (Ok (h, i), w')
    ∧ (i < length (_server c))%nat
    ∧ h = match _clients w !! i with Some (Some h0) => h0 | _ => i end
    ∧ _clients w' = <[i := Some h]> (_clients w)
    ∧ log w' = log w ∧ faults w' = faults w ∧ servers w' = servers w
    ∧ client_invariant c w'.
Proof.
  intros Hinv.
  destruct (get_client_spec c write tried w Hinv)
    as (h & i & w' & Hg & Hi & _ & Hh & Hc & Hl & Hf & Hs).
  exists h, i, w'. repeat split; try assumption.
  - rewrite Hc, length_insert. apply Hinv.
  - apply Hinv.
Qed.

Lemma get_client_fills_one_slot_witness :
  ∃ h i w', get_client (example_client 2 true) true None (fresh_world 2 [] [])
            = (Ok (h, i), w')
    ∧ _clients w' = <[i := Some h]> (_clients (fresh_world 2 [] [])).
Proof.
  destruct (get_client_fills_one_slot (example_client 2 true) true None
              (fresh_world 2 [] []))
    as (h & i & w' & Hg & _ & _ & Hc & _).
  - split; [reflexivity | cbn; lia].
  - exists h, i, w'. split; assumption.
Defined.

(** ** Failover *)



(** ** get_many *)







(** ** The fallback of _incr *)

Lemma incr_fallback_quiet (c : client) (k : key) (delta : Z) (ver : option Z)
    (h : nat) (ignore_key_check : bool) (w : world) (e : entry) (cur : value) :
  let nkey := key_str (make_key (_backend c) k ver None) in
  let t := match e_pttl e with None => -1 | Some ms => (ms + 500) / 1000 end in
  let secs := if t >=? 0 then Some t
              else if t =? -1 then None
              else if t =? -2 then Some 0 else None in
  let px := (λ x, x * 1000) <$> secs in
  let total := int_of_value cur + delta in
  faults w = [] →
  db w h !! nkey = Some e →
  run_eval (negb ignore_key_check) nkey delta (db w h)
  = (Raise (Main ResponseError), db w h) →
  decode c (SBytes (e_value e)) = Ok cur →
  isinstance_int cur = true →
  ∃ w', _incr c k delta ver (Some h) ignore_key_check w = (Ok (VInt total), w')
    ∧ db w' h
      = (if not_positive px then base.delete nkey (db w h)
         else <[nkey := {| e_value := b_ (str_of_int total); e_pttl := px |}]> (db w h))
    ∧ ∀ i, i ≠ h → db w' i = db w i.
Proof.
  intros nkey t secs px total Hf Hd Hrun Hdec Hint.
  set (nk := make_key (_backend c) k ver None).
  set (w1 := set_servers
               (set_faults (add_log w h (EVAL (negb ignore_key_check) nkey delta)) [])
               (<[h := db w h]> (servers w))).
  assert (Hd1 : ∀ i, db w1 i = db w i) by (apply db_touch; reflexivity).
  destruct (ttl_quiet c nk ver h w1 eq_refl) as (w2 & Ht & Hf2 & Hd2).
  destruct (get_quiet c nk VNone ver h w2 Hf2) as (w3 & Hg & Hf3 & Hd3).
  destruct (set_quiet c nk (VInt total) (num_of_int <$> secs) ver h w3 Hf3)
    as (b & w4 & Hs & _ & Hd4 & Ho4).
  subst nk. rewrite make_key_made in Ht, Hg, Hd4.
  fold nkey in Ht, Hg, Hd4.
  rewrite Hd1, Hd in Ht. rewrite Hd2, Hd1, Hd, Hdec in Hg.
  fold t in Ht. cbn zeta in Ht. fold secs in Ht.
  rewrite px_of_seconds in Hd4. fold px in Hd4.
  set (nk := make_key (_backend c) k ver None) in *.
  assert (Hsecs : secs ≠ Some (-2)).
  { intros E. apply (ttl_never_minus_two c nk ver (Some h) w1).
    rewrite Ht. cbn [fst]. rewrite E. reflexivity. }
  exists w4. split; [|split].
  - unfold _incr, client_or_get.
    unfold bind at 1. unfold ret at 1.
    unfold except_main, except_ResponseError.
    unfold bind at 1. unfold client_eval. rewrite send_unfold.
    unfold next_fault at 1. rewrite Hf. fold nk. fold nkey. rewrite Hrun.
    cbn [fst snd tail]. fold w1.
    unfold bind. rewrite Ht.
    rewrite bool_decide_eq_false_2 by exact Hsecs.
    rewrite Hg. unfold lift, py_add_int. rewrite Hint. fold total.
    rewrite Hs. reflexivity.
  - rewrite Hd4, Hd3, Hd2, Hd1. reflexivity.
  - intros i Hi. rewrite Ho4, Hd3, Hd2, Hd1 by assumption. reflexivity.
Qed.

(** X23: the fallback of [_incr].  On a key whose string the server does
    not take for an integer, but which decodes to an [int] or a [bool],
    [incr] answers the sum computed on the client and writes it back as
    a raw integer, so that the next [incr] runs on the server; the
    expiry written back is the one [ttl] reported, in whole seconds, and
    a key in its last half second is deleted instead of rewritten. *)
Theorem incr_fallback_rewrites_raw (c : client) (k : key) (delta : Z)
    (ver : option Z) (h : nat) (w : world) (e : entry) (cur : value) :
  let nkey := key_str (make_key (_backend c) k ver None) in
  let px := (λ ms, (ms + 500) / 1000 * 1000) <$> e_pttl e in
  let total := int_of_value cur + delta in
  faults w = [] →
  db w h !! nkey = Some e →
  string2ll (e_value e) = None →
  int64 delta = true →
  decode c (SBytes (e_value e)) = Ok cur →
  isinstance_int cur = true →
  (∀ ms, e_pttl e = Some ms → 0 <= ms) →
  let o := incr c k delta ver (Some h) false w in
  fst o = Ok (VInt total)
  ∧ db (snd o) h !! nkey
    = (if not_positive px then None
       else Some {| e_value := b_ (str_of_int total); e_pttl := px |})
  ∧ (∀ k', k' ≠ nkey → db (snd o) h !! k' = db w h !! k')
  ∧ (∀ i, i ≠ h → db (snd o) i = db w i).
Proof.
  intros nkey px total Hf Hd Hs2 Hdl Hdec Hint Hms o. subst o. unfold incr.
  destruct (incr_fallback_quiet c k delta ver h false w e cur Hf Hd) as (w' & -> & Hdb & Ho);
    [| exact Hdec | exact Hint |].
  - fold nkey. cbn [negb run_eval]. rewrite Hd.
    rewrite bool_decide_eq_true_2 by (eexists; reflexivity).
    unfold run_incrby. rewrite Hdl, Hd, Hs2. reflexivity.
  - cbn [fst snd]. fold nkey total in Hdb.
    assert (Hpx : (λ x, x * 1000) <$>
                    (let t := match e_pttl e with
                              | Some ms => (ms + 500) / 1000 | None => -1 end in
                     if t >=? 0 then Some t
                     else if t =? -1 then None else if t =? -2 then Some 0 else None)
                  = px).
    { subst px. destruct (e_pttl e) as [ms|]; [|reflexivity].
      specialize (Hms ms eq_refl). cbn zeta.
      assert (0 <= (ms + 500) / 1000) by (apply Z.div_pos; lia).
      destruct (Z.geb_spec ((ms + 500) / 1000) 0); [reflexivity | lia]. }
    cbn zeta in Hpx. rewrite Hpx in Hdb.
    split; [reflexivity|]. split; [|split; [|exact Ho]].
    + rewrite Hdb. destruct (not_positive px).
      * apply lookup_delete_eq.
      * apply lookup_insert_eq.
    + intros k' Hk. rewrite Hdb. destruct (not_positive px).
      * apply lookup_delete_ne. congruence.
      * apply lookup_insert_ne. congruence.
Qed.

Lemma incr_fallback_rewrites_raw_witness :
  let c := example_client 1 true in
  let w := snd (set c (Plain "flag") (VBool true) (Timeout None) None (Some 0%nat)
                  false false (fresh_world 1 [] [])) in
  let o := incr c (Plain "flag") 5 None (Some 0%nat) false w in
  fst o = Ok (VInt (1 + 5))
  ∧ db (snd o) 0%nat !! "p:1:flag" = Some {| e_value := b_ "6"; e_pttl := None |}.
Proof.
  intros c w o.
  destruct (incr_fallback_rewrites_raw c (Plain "flag") 5 None 0%nat w
              {| e_value := b_ "T"; e_pttl := None |} (VBool true))
    as (H1 & H2 & _).
  - reflexivity.
  - vm_compute. reflexivity.
  - reflexivity.
  - reflexivity.
  - reflexivity.
  - reflexivity.
  - intros ms [=].
  - split; [exact H1 | exact H2].
Defined.
